(** * leaflet-gsheets: a shallow embedding of [leaflet-gsheets.js]

    The script turns two spreadsheet tables into two Leaflet layers:
    [addPolygons] builds a GeoJSON [FeatureCollection] from the rows whose
    [include] column is ["y"], and [addPoints] creates one marker per row,
    coloured by [getColor].  Both keep their current layer in a global
    variable ([polygonLayer], [pointGroupLayer]) and detach it from the map
    before they build the next one.

    The embedding models
    - a table row as a finite map from column names to strings (a JS object
      whose own properties are the cells), a read of an absent column giving
      [undefined];
    - the globals, the map's attached layers and the Leaflet objects the
      script creates as one [World] record with an object store, threaded
      through a state-and-exception monad: a JS exception keeps the writes
      that happened before it;
    - [JSON.parse] as a parameter of the development (section [Script]); a
      concrete recursive-descent parser, [json_parse], instantiates it in the
      closed examples. *)

From Stdlib Require Import Ascii String.
From stdpp Require Import base option list gmap strings fin_maps.

Set Warnings "-register-all".

Open Scope string_scope.

(** ** JavaScript values read from a row *)

(** A cell of a row is a string; reading a column the row does not have
    yields [undefined]. *)
Inductive value : Type :=
  | VUndef
  | VStr (s : string).

#[global] Instance value_eq_dec : EqDecision value.
Proof. solve_decision. Defined.

(** A row as delivered by Tabletop.js or by the stored JSON snapshot. *)
Abbreviation row := (gmap string string).

(** [r.k] *)
Definition get (r : row) (k : string) : value :=
  match r !! k with
  | Some s => VStr s
  | None => VUndef
  end.

(** [v == s] for a string literal [s]: both strings are compared as they
    are; [undefined] is loosely equal to [null] and [undefined] only. *)
Definition loose_eq_str (v : value) (s : string) : bool :=
  match v with
  | VStr t => String.eqb t s
  | VUndef => false
  end.

(** [v === s], the comparison a [switch] makes. *)
Definition strict_eq_str (v : value) (s : string) : bool :=
  match v with
  | VStr t => String.eqb t s
  | VUndef => false
  end.

(** The abstract operation ToString, as string concatenation and
    [JSON.parse] apply it to their argument. *)
Definition ToString (v : value) : string :=
  match v with
  | VStr s => s
  | VUndef => "undefined"
  end.

(** ** getColor *)

Definition getColor (type : value) : string :=
  if strict_eq_str type "Bag Ban" then "green"
  else if strict_eq_str type "Recycling" then "blue"
  else "green".

(** ** JSON values *)

(** The result of [JSON.parse].  A number keeps its literal and a string
    the text between its quotes: no claim computes with either. *)
Inductive json : Type :=
  | JNull
  | JBool (b : bool)
  | JNum (literal : string)
  | JStr (text : string)
  | JArr (items : list json)
  | JObj (members : list (string * json)).

(** ** A JSON parser (ECMA-404 grammar) *)

Module Json.

#[local] Open Scope list_scope.

Definition chars := list ascii.

Definition is_ws (c : ascii) : bool :=
  match c with
  | " "%char | "009"%char | "010"%char | "013"%char => true
  | _ => false
  end.

Fixpoint skip_ws (s : chars) : chars :=
  match s with
  | c :: s' => if is_ws c then skip_ws s' else s
  | [] => []
  end.

Definition is_digit (c : ascii) : bool :=
  let n := nat_of_ascii c in (48 <=? n)%nat && (n <=? 57)%nat.

Definition is_hex (c : ascii) : bool :=
  let n := nat_of_ascii c in
  is_digit c || ((65 <=? n)%nat && (n <=? 70)%nat)
             || ((97 <=? n)%nat && (n <=? 102)%nat).

(** Longest prefix of digits, and the rest. *)
Fixpoint digits (s : chars) : chars * chars :=
  match s with
  | c :: s' =>
      if is_digit c then let '(d, r) := digits s' in (c :: d, r) else ([], s)
  | [] => ([], [])
  end.

(** [int frac? exp?] with [int] = ["0"] or a digit sequence that does not
    start with ["0"], after an optional minus sign. *)
Definition number (s : chars) : option (chars * chars) :=
  let '(sign, s1) :=
    match s with "-"%char :: s' => (["-"%char], s') | _ => ([], s) end in
  let '(int, s2) := digits s1 in
  match int with
  | [] => None
  | c :: int' =>
      if Ascii.eqb c "0" && negb (bool_decide (int' = [])) then None else
      let frac :=
        match s2 with
        | "."%char :: s' =>
            let '(f, r) := digits s' in
            match f with [] => None | _ => Some ("."%char :: f, r) end
        | _ => Some ([], s2)
        end in
      match frac with
      | None => None
      | Some (f, s3) =>
          let exp :=
            match s3 with
            | e :: s' =>
                if Ascii.eqb e "e" || Ascii.eqb e "E" then
                  let '(sg, s'') :=
                    match s' with
                    | "+"%char :: t => (["+"%char], t)
                    | "-"%char :: t => (["-"%char], t)
                    | _ => ([], s')
                    end in
                  let '(x, r) := digits s'' in
                  match x with [] => None | _ => Some (e :: sg ++ x, r) end
                else Some ([], s3)
            | [] => Some ([], s3)
            end in
          match exp with
          | None => None
          | Some (x, s4) => Some (sign ++ int ++ f ++ x, s4)
          end
      end
  end.

(** The characters of a string literal after its opening quote, up to the
    closing one: no control character, and every backslash starts one of
    the escapes of the grammar. *)
Fixpoint str_body (s : chars) : option (chars * chars) :=
  match s with
  | [] => None
  | "034"%char :: r => Some ([], r)
  | "\"%char :: "u"%char :: a :: b :: c :: d :: r =>
      if is_hex a && is_hex b && is_hex c && is_hex d then
        '(t, r') ← str_body r;
        Some ("\"%char :: "u"%char :: a :: b :: c :: d :: t, r')
      else None
  | "\"%char :: e :: r =>
      if bool_decide (e ∈ ["034";"\";"/";"b";"f";"n";"r";"t"]%char) then
        '(t, r') ← str_body r; Some ("\"%char :: e :: t, r')
      else None
  | c :: r =>
      if (nat_of_ascii c <? 32)%nat then None
      else '(t, r') ← str_body r; Some (c :: t, r')
  end.

Definition to_string (s : chars) : string := string_of_list_ascii s.

Section Value.
(** The parser of one value, at the nesting depth below. *)
Variable value_at : chars -> option (json * chars).

(** The elements of an array after the first, up to ["]"]. *)
Fixpoint elements (fuel : nat) (acc : list json) (s : chars)
  : option (json * chars) :=
  match fuel with
  | O => None
  | S fuel' =>
      match skip_ws s with
      | "]"%char :: r => Some (JArr acc, r)
      | ","%char :: r =>
          '(v, r') ← value_at r; elements fuel' (acc ++ [v]) r'
      | _ => None
      end
  end.

(** One [string : value] member. *)
Definition member (s : chars) : option ((string * json) * chars) :=
  match skip_ws s with
  | "034"%char :: r =>
      '(k, r1) ← str_body r;
      match skip_ws r1 with
      | ":"%char :: r2 => '(v, r3) ← value_at r2; Some ((to_string k, v), r3)
      | _ => None
      end
  | _ => None
  end.

(** The members of an object after the first, up to the closing brace. *)
Fixpoint members (fuel : nat) (acc : list (string * json)) (s : chars)
  : option (json * chars) :=
  match fuel with
  | O => None
  | S fuel' =>
      match skip_ws s with
      | "}"%char :: r => Some (JObj acc, r)
      | ","%char :: r =>
          '(m, r') ← member r; members fuel' (acc ++ [m]) r'
      | _ => None
      end
  end.
End Value.

Definition literal (word : string) (v : json) (s : chars)
  : option (json * chars) :=
  let w := list_ascii_of_string word in
  if bool_decide (take (length w) s = w) then Some (v, drop (length w) s)
  else None.

(** One value with the whitespace before it; [fuel] bounds the nesting
    depth and the number of elements of each array and object. *)
Fixpoint value (fuel : nat) (s : chars) : option (json * chars) :=
  match fuel with
  | O => None
  | S fuel' =>
      match skip_ws s with
      | "["%char :: r =>
          match skip_ws r with
          | "]"%char :: r' => Some (JArr [], r')
          | _ => '(v, r') ← value fuel' r; elements (value fuel') fuel' [v] r'
          end
      | "{"%char :: r =>
          match skip_ws r with
          | "}"%char :: r' => Some (JObj [], r')
          | _ =>
              '(m, r') ← member (value fuel') r;
              members (value fuel') fuel' [m] r'
          end
      | "034"%char :: r => '(t, r') ← str_body r; Some (JStr (to_string t), r')
      | "t"%char :: _ => literal "true" (JBool true) (skip_ws s)
      | "f"%char :: _ => literal "false" (JBool false) (skip_ws s)
      | "n"%char :: _ => literal "null" JNull (skip_ws s)
      | _ => '(n, r) ← number (skip_ws s); Some (JNum (to_string n), r)
      end
  end.

(** A text is one value, with nothing but whitespace after it. *)
Definition parse (text : string) : option json :=
  let s := list_ascii_of_string text in
  '(v, r) ← value (S (length s)) s;
  match skip_ws r with
  | [] => Some v
  | _ => None
  end.

End Json.

Definition json_parse : string -> option json := Json.parse.

(** ** GeoJSON, as the script builds it *)

Record Geometry := {
  geometry_type : string;             (* "type" *)
  coordinates : json }.

Record Feature := {
  feature_type : string;              (* "type" *)
  geometry : Geometry;
  properties : gmap string value }.

Record FeatureCollection := {
  collection_type : string;           (* "type" *)
  features : list Feature }.

(** ** Leaflet objects *)

(** Path options; [weight] keeps the number's literal. *)
Record Style := {
  color : string;
  fillColor : string;
  weight : string }.

(** The options given to [L.AwesomeMarkers.icon]. *)
Record Icon := {
  icon : string;
  iconColor : string;
  markerColor : string;
  prefix : string;
  extraClasses : string }.

Record Marker := {
  latlng : value * value;
  popup : option string;
  marker_icon : option Icon }.

(** An object of the rendering library, reached through its handle.  A
    GeoJSON layer records the collection it was built from, its [style]
    option and the popup [onEachFeature] bound to each feature's layer (the
    [mouseover], [mouseout] and [click] handlers only restyle a shape on
    pointer events and are not modelled).  A layer group lists the handles of
    the layers added to it. *)
Inductive object : Type :=
  | TileLayer
  | GeoJSON (data : FeatureCollection) (style : Style) (popups : list string)
  | LayerGroup (layers : list nat)
  | MarkerObj (m : Marker).

(** ** The page: globals, the map and the object store *)

Record World := {
  heap : gmap nat object;         (* the Leaflet objects, by handle *)
  next : nat;                     (* the next handle *)
  map_layers : list nat;          (* the layers attached to [map] *)
  polygonLayer : option nat;      (* [var polygonLayer]; [None] is undefined *)
  pointGroupLayer : option nat }. (* [var pointGroupLayer] *)

(** The page once the top level of the script has run: [map] exists, the
    basemap tile layer is attached to it and both globals are undefined. *)
Definition init : World :=
  {| heap := {[ 0 := TileLayer ]}; next := 1; map_layers := [0];
     polygonLayer := None; pointGroupLayer := None |}.

(** ** Computations: state, and exceptions that keep the state *)

Inductive exn : Type := SyntaxError | TypeError.

Inductive outcome (A : Type) : Type :=
  | Return (a : A)
  | Throw (e : exn).
Arguments Return {A} a.
Arguments Throw {A} e.

Definition M (A : Type) : Type := World -> outcome A * World.

#[global] Instance M_ret : MRet M := fun A a w => (Return a, w).

#[global] Instance M_bind : MBind M := fun A B k c w =>
  match c w with
  | (Return a, w') => k a w'
  | (Throw e, w') => (Throw e, w')
  end.

Definition throw {A} (e : exn) : M A := fun w => (Throw e, w).
Definition gets {A} (f : World -> A) : M A := fun w => (Return (f w), w).
Definition modify (f : World -> World) : M unit := fun w => (Return tt, f w).

(** The world a computation leaves, however it ends. *)
Definition exec {A} (c : M A) (w : World) : World := (c w).2.

(** *** Assignments to the globals *)

Definition set_polygonLayer (l : nat) : M unit :=
  modify (fun w =>
    {| heap := heap w; next := next w; map_layers := map_layers w;
       polygonLayer := Some l; pointGroupLayer := pointGroupLayer w |}).

Definition set_pointGroupLayer (l : nat) : M unit :=
  modify (fun w =>
    {| heap := heap w; next := next w; map_layers := map_layers w;
       polygonLayer := polygonLayer w; pointGroupLayer := Some l |}).

(** *** The rendering library *)

(** Modelled from the spec: the constructors of the map collaborator
    ([createFeatureLayer], [createMarker], [createLayerGroup] of its
    interface) return a new handle for every argument; the library's own
    code is not part of the script. *)
Definition new (o : object) : M nat := fun w =>
  (Return (next w),
   {| heap := <[next w := o]> (heap w); next := S (next w);
      map_layers := map_layers w;
      polygonLayer := polygonLayer w; pointGroupLayer := pointGroupLayer w |}).

Definition set_heap (h : gmap nat object) : M unit :=
  modify (fun w =>
    {| heap := h; next := next w; map_layers := map_layers w;
       polygonLayer := polygonLayer w; pointGroupLayer := pointGroupLayer w |}).

Definition set_map_layers (ls : list nat) : M unit :=
  modify (fun w =>
    {| heap := heap w; next := next w; map_layers := ls;
       polygonLayer := polygonLayer w; pointGroupLayer := pointGroupLayer w |}).

(** [l.remove()]: the layer leaves the map it is on, if any. *)
Definition remove (l : nat) : M unit :=
  ls ← gets map_layers;
  set_map_layers (filter (fun l' => l' ≠ l) ls).

(** [l.addTo(map)]: a layer already on the map is not added twice. *)
Definition addTo_map (l : nat) : M unit :=
  ls ← gets map_layers;
  if decide (l ∈ ls) then mret tt else set_map_layers (ls ++ [l]).

(** [m.addTo(g)] for a layer group [g]: [g.addLayer(m)]. *)
Definition addTo_group (m : nat) (g : option nat) : M unit :=
  h ← gets heap;
  match g with
  | Some g' =>
      match h !! g' with
      | Some (LayerGroup ms) => set_heap (<[g' := LayerGroup (ms ++ [m])]> h)
      | _ => throw TypeError
      end
  | None => throw TypeError
  end.

(** [m.bindPopup(html)] *)
Definition bindPopup (m : nat) (html : string) : M unit :=
  h ← gets heap;
  match h !! m with
  | Some (MarkerObj mk) =>
      set_heap (<[m := MarkerObj {| latlng := latlng mk; popup := Some html;
                                     marker_icon := marker_icon mk |}]> h)
  | _ => throw TypeError
  end.

(** [m.setIcon(i)] *)
Definition setIcon (m : nat) (i : Icon) : M unit :=
  h ← gets heap;
  match h !! m with
  | Some (MarkerObj mk) =>
      set_heap (<[m := MarkerObj {| latlng := latlng mk; popup := popup mk;
                                     marker_icon := Some i |}]> h)
  | _ => throw TypeError
  end.

(** [L.marker([lat, long])]: a new marker, its position kept as given. *)
Definition L_marker (pos : value * value) : M nat :=
  new (MarkerObj {| latlng := pos; popup := None; marker_icon := None |}).

(** [L.layerGroup()] *)
Definition L_layerGroup : M nat := new (LayerGroup []).

Definition poylgonStyle : Style :=
  {| color := "#2ca25f"; fillColor := "#99d8c9"; weight := "1.5" |}.

Definition polygonHoverStyle : Style :=
  {| color := "green"; fillColor := "#2ca25f"; weight := "3" |}.

(** The [onEachFeature] option of [addPolygons]: the popup of a feature. *)
Definition onEachFeature (f : Feature) : string :=
  "<h2>" ++ ToString (default VUndef (properties f !! "name")) ++ "</h2><p>"
  ++ ToString (default VUndef (properties f !! "summary")) ++ "</p>".

(** [L.geoJSON(fc, {onEachFeature, style})] *)
Definition L_geoJSON (fc : FeatureCollection) : M nat :=
  new (GeoJSON fc poylgonStyle (onEachFeature <$> features fc)).

(** ** The script's functions *)

Section Script.

(** [JSON.parse], on the text of its argument; [None] is a thrown
    [SyntaxError]. *)
Variable JSON_parse : string -> option json.

Definition JSON_parse_value (v : value) : M json :=
  match JSON_parse (ToString v) with
  | Some j => mret j
  | None => throw SyntaxError
  end.

(** The feature pushed for a row, given its parsed geometry. *)
Definition feature (r : row) (coords : json) : Feature :=
  {| feature_type := "Feature";
     geometry := {| geometry_type := "MultiPolygon"; coordinates := coords |};
     properties :=
       {[ "name" := get r "name"; "summary" := get r "summary";
          "state" := get r "state"; "local" := get r "local" ]} |}.

(** [for (var row in data) { ... }]: the rows in index order, with the
    [features] array of [geojsonStates] as it grows. *)
Fixpoint for_in (data : list row) (features : list Feature)
  : M (list Feature) :=
  match data with
  | [] => mret features
  | r :: rest =>
      if loose_eq_str (get r "include") "y" then
        coords ← JSON_parse_value (get r "geometry");
        for_in rest (features ++ [feature r coords])
      else for_in rest features
  end.

Definition addPolygons (data : list row) : M unit :=
  old ← gets polygonLayer;
  match old with
  | Some l => remove l
  | None => mret tt
  end;;
  fs ← for_in data [];
  let geojsonStates :=
    {| collection_type := "FeatureCollection"; features := fs |} in
  l ← L_geoJSON geojsonStates;
  addTo_map l;;
  set_polygonLayer l.

Definition popup_html (r : row) : string :=
  "<h2>" ++ ToString (get r "location") ++ "</h2>"
  ++ ToString (get r "category") ++ " regulations at "
  ++ ToString (get r "level") ++ " level".

Definition marker_icon_of (r : row) : Icon :=
  {| icon := "info-sign"; iconColor := "white";
     markerColor := getColor (get r "category");
     prefix := "glyphicon"; extraClasses := "fa-rotate-0" |}.

(** [for (var row = 0; row < data.length; row++) { ... }] *)
Fixpoint for_rows (data : list row) : M unit :=
  match data with
  | [] => mret tt
  | r :: rest =>
      marker ← L_marker (get r "lat", get r "long");
      g ← gets pointGroupLayer;
      addTo_group marker g;;
      bindPopup marker (popup_html r);;
      setIcon marker (marker_icon_of r);;
      for_rows rest
  end.

Definition addPoints (data : list row) : M unit :=
  old ← gets pointGroupLayer;
  match old with
  | Some g => remove g
  | None => mret tt
  end;;
  g ← L_layerGroup;
  addTo_map g;;
  set_pointGroupLayer g;;
  for_rows data.

End Script.

(** ** What the page shows *)

Definition is_geojson (o : option object) : bool :=
  match o with Some (GeoJSON _ _ _) => true | _ => false end.

Definition is_group (o : option object) : bool :=
  match o with Some (LayerGroup _) => true | _ => false end.

(** The polygon layers attached to the map. *)
Definition polygon_layers (w : World) : list nat :=
  filter (fun l => is_geojson (heap w !! l)) (map_layers w).

(** The collection shown by the layer [polygonLayer] refers to, when that
    layer is on the map. *)
Definition rendered_collection (w : World) : option FeatureCollection :=
  l ← polygonLayer w;
  if decide (l ∈ map_layers w) then
    match heap w !! l with
    | Some (GeoJSON fc _ _) => Some fc
    | _ => None
    end
  else None.

(** The markers of the group [pointGroupLayer] refers to, in the order they
    were added, when that group is on the map. *)
Definition rendered_markers (w : World) : option (list (option object)) :=
  g ← pointGroupLayer w;
  if decide (g ∈ map_layers w) then
    match heap w !! g with
    | Some (LayerGroup ms) => Some ((fun m => heap w !! m) <$> ms)
    | _ => None
    end
  else None.

(** Every polygon layer on the map, by content: handles are left out, so two
    pages that show the same thing compare equal. *)
Definition shown_polygons (w : World) : list object :=
  omap (fun l => match heap w !! l with
                 | Some (GeoJSON fc st pp) => Some (GeoJSON fc st pp)
                 | _ => None
                 end) (map_layers w).

(** Every point group on the map, as the list of its markers. *)
Definition shown_points (w : World) : list (list (option object)) :=
  omap (fun l => match heap w !! l with
                 | Some (LayerGroup ms) => Some ((fun m => heap w !! m) <$> ms)
                 | _ => None
                 end) (map_layers w).

(** The layers left on the map once the layer a global refers to, if any,
    has been removed. *)
Definition detached (slot : option nat) (ls : list nat) : list nat :=
  match slot with
  | Some l => filter (fun l' => l' ≠ l) ls
  | None => ls
  end.

(** The layers on the map once a layer has been added to it. *)
Definition attached (l : nat) (ls : list nat) : list nat :=
  if decide (l ∈ ls) then ls else (ls ++ [l])%list.

(** The marker [addPoints] leaves for a row. *)
Definition marker_of_row (r : row) : Marker :=
  {| latlng := (get r "lat", get r "long");
     popup := Some (popup_html r);
     marker_icon := Some (marker_icon_of r) |}.

(** The inclusion flag, in the words of the specification: the [include]
    column is present and is the one-letter string ["y"]. *)
Definition included (r : row) : Prop := r !! "include" = Some "y".

#[global] Instance included_dec r : Decision (included r).
Proof. unfold included. apply _. Defined.

(** ** The pages the script can reach *)

Section Reach.

Variable JSON_parse : string -> option json.

(** Each data arrival (snapshot or spreadsheet) runs one of the two
    functions on the page as the arrivals before it left it; an uncaught
    exception ends that callback only. *)
Inductive reachable : World -> Prop :=
  | reach_init : reachable init
  | reach_polygons data w :
      reachable w -> reachable (exec (addPolygons JSON_parse data) w)
  | reach_points data w :
      reachable w -> reachable (exec (addPoints data) w).

(** The features of the included rows, when all of them parse. *)
Definition collect (data : list row) : option (list Feature) :=
  mapM (fun r => feature r <$> JSON_parse (ToString (get r "geometry")))
       (filter included data).

(** The page invariant. *)
Record wf (w : World) : Prop := {
  wf_fresh : forall k, is_Some (heap w !! k) -> k < next w;
  wf_attached : forall l, l ∈ map_layers w -> is_Some (heap w !! l);
  wf_polygons : forall l, l ∈ map_layers w ->
    is_geojson (heap w !! l) -> polygonLayer w = Some l;
  wf_points : forall l, l ∈ map_layers w ->
    is_group (heap w !! l) -> pointGroupLayer w = Some l;
  wf_polygon_slot : forall l, polygonLayer w = Some l ->
    is_geojson (heap w !! l);
  wf_point_slot : forall g, pointGroupLayer w = Some g ->
    is_group (heap w !! g) }.

End Reach.

(** ** Data arrivals *)

(** The four callbacks the script registers: the two [$.getJSON] calls on
    the stored snapshots, and the two [Tabletop.init] calls of [init] on the
    spreadsheets.  Each hands its table to [addPolygons] or [addPoints]. *)
Inductive arrival : Type :=
  | StatesSnapshot (json : list row)
  | LawsSnapshot (json : list row)
  | LawsSheet (data : list row)
  | StatesSheet (data : list row).

(** The table of an arrival, when it is a states table. *)
Definition states_table (a : arrival) : option (list row) :=
  match a with
  | StatesSnapshot d | StatesSheet d => Some d
  | _ => None
  end.

(** The table of an arrival, when it is a laws table. *)
Definition laws_table (a : arrival) : option (list row) :=
  match a with
  | LawsSnapshot d | LawsSheet d => Some d
  | _ => None
  end.

Section Arrivals.

Variable JSON_parse : string -> option json.

Definition deliver (a : arrival) : M unit :=
  match a with
  | StatesSnapshot json => addPolygons JSON_parse json
  | LawsSnapshot json => addPoints json
  | LawsSheet data => addPoints data
  | StatesSheet data => addPolygons JSON_parse data
  end.

(** The page after the arrivals, in the order they came; an exception in
    one callback does not stop the later ones. *)
Definition arrive (evs : list arrival) (w : World) : World :=
  foldl (fun v a => exec (deliver a) v) w evs.

End Arrivals.

(** The point groups attached to the map. *)
Definition point_groups (w : World) : list nat :=
  filter (fun l => is_group (heap w !! l)) (map_layers w).

(** The markers of every group in the store have been created. *)
Definition children_allocated (w : World) : Prop :=
  forall g ms m, heap w !! g = Some (LayerGroup ms) -> m ∈ ms -> m < next w.

(** Two rows agree on the columns [ks]. *)
Definition same_on (ks : list string) (r r' : row) : Prop :=
  forall k, k ∈ ks -> r !! k = r' !! k.

(** The columns [addPolygons] reads, and those [addPoints] reads. *)
Definition state_columns : list string :=
  ["include"; "geometry"; "name"; "summary"; "state"; "local"].

Definition law_columns : list string :=
  ["lat"; "long"; "location"; "category"; "level"].

(** The popup of a states row, from the row's own cells. *)
Definition state_popup (r : row) : string :=
  "<h2>" ++ ToString (get r "name") ++ "</h2><p>"
  ++ ToString (get r "summary") ++ "</p>".

(** ** Sample tables *)

Module Sample.

(** Rows of the states sheet.  [utah] and [maine] are flagged for the map;
    [ohio] is flagged ["n"], [iowa] is flagged with a capital ["Y"] and
    [texas] has no [include] cell at all. *)
Definition utah : row :=
  {[ "include" := "y"; "geometry" := "[[[[0,0],[1,0],[1,1],[0,0]]]]";
     "name" := "Utah"; "summary" := "Bag fees"; "state" := "1";
     "local" := "0"; "notes" := "checked" ]}.

Definition ohio : row :=
  {[ "include" := "n"; "geometry" := "[[[[2,2],[3,2],[3,3],[2,2]]]]";
     "name" := "Ohio"; "summary" := "None"; "state" := "0";
     "local" := "0" ]}.

Definition iowa : row :=
  {[ "include" := "Y"; "geometry" := "[[[[4,4],[5,4],[5,5],[4,4]]]]";
     "name" := "Iowa"; "summary" := "Deposits"; "state" := "1";
     "local" := "1" ]}.

Definition maine : row :=
  {[ "include" := "y"; "geometry" := "[[[[6,6],[7,6],[7,7],[6,6]]]]";
     "name" := "Maine"; "summary" := "Bottle bill"; "state" := "1" ]}.

Definition texas : row :=
  {[ "geometry" := "[[[[8,8],[9,8],[9,9],[8,8]]]]"; "name" := "Texas" ]}.

(** Flags that differ from ["y"] by a leading blank, and the empty flag. *)
Definition idaho : row :=
  {[ "include" := " y"; "geometry" := "[[[[1,2],[3,2],[3,4],[1,2]]]]";
     "name" := "Idaho" ]}.

Definition nevada : row :=
  {[ "include" := ""; "geometry" := "[[[[5,6],[7,6],[7,8],[5,6]]]]";
     "name" := "Nevada" ]}.

(** A row that is left out and whose geometry is not JSON. *)
Definition skipped_broken : row :=
  {[ "include" := "n"; "geometry" := "not json"; "name" := "Draft" ]}.

(** A row that is flagged for the map and whose geometry is cut short. *)
Definition broken : row :=
  {[ "include" := "y"; "geometry" := "[[[[0,0],[1,0]"; "name" := "Cut" ]}.

(** Rows of the laws sheet; [nowhere] has a non-numeric latitude and no
    longitude. *)
Definition austin : row :=
  {[ "lat" := "30.27"; "long" := "-97.74"; "location" := "Austin";
     "category" := "Bag Ban"; "level" := "city" ]}.

Definition oregon : row :=
  {[ "lat" := "44.0"; "long" := "-120.5"; "location" := "Oregon";
     "category" := "Recycling"; "level" := "state" ]}.

Definition nowhere : row :=
  {[ "lat" := "north"; "location" := "Nowhere";
     "category" := "Composting"; "level" := "county" ]}.

(** [utah] with other spare columns, and a flagged row with no geometry. *)
Definition utah_annotated : row :=
  {[ "include" := "y"; "geometry" := "[[[[0,0],[1,0],[1,1],[0,0]]]]";
     "name" := "Utah"; "summary" := "Bag fees"; "state" := "1";
     "local" := "0"; "source" := "survey"; "rowNumber" := "7" ]}.

Definition shapeless : row :=
  {[ "include" := "y"; "name" := "Shapeless" ]}.

(** [austin] with a spare column. *)
Definition austin_annotated : row :=
  {[ "lat" := "30.27"; "long" := "-97.74"; "location" := "Austin";
     "category" := "Bag Ban"; "level" := "city"; "year" := "2013" ]}.

End Sample.

(** * Properties *)

(** Runs a computation up to the next read of the store it cannot decide. *)
Ltac run :=
  repeat progress
    (unfold mbind, M_bind, mret, M_ret, gets, modify, throw, L_marker, new,
       addTo_group, bindPopup, setIcon, set_heap, set_map_layers; simpl).

Open Scope list_scope.

(** ** The parser on sample texts *)

Example json_parse_ring :
  json_parse "[[[[0,0],[1.5,0],[1,-1e2],[0,0]]]]"
  = Some (JArr [JArr [JArr [JArr [JNum "0"; JNum "0"];
                            JArr [JNum "1.5"; JNum "0"];
                            JArr [JNum "1"; JNum "-1e2"];
                            JArr [JNum "0"; JNum "0"]]]]).
Proof. vm_compute. reflexivity. Qed.

Example json_parse_object :
  let q := String "034" EmptyString in
  json_parse (" {" ++ q ++ "a" ++ q ++ " : [true, null], "
              ++ q ++ "b\n" ++ q ++ ":" ++ q ++ "x" ++ q ++ "} ")%string
  = Some (JObj [("a", JArr [JBool true; JNull]); ("b\n", JStr "x")]).
Proof. vm_compute. reflexivity. Qed.

Example json_parse_rejects :
  json_parse "not json" = None /\ json_parse "undefined" = None /\
  json_parse "" = None /\ json_parse "[[0,1]" = None /\
  json_parse "[1,]" = None /\ json_parse "01" = None /\
  json_parse "[1] 2" = None /\ json_parse "{oops" = None.
Proof. vm_compute. repeat split. Qed.

(** ** The loop of [addPolygons] *)

Lemma loose_eq_included (r : row) :
  loose_eq_str (get r "include") "y" = true <-> included r.
Proof.
  unfold included, get, loose_eq_str.
  destruct (r !! "include") as [s|]; [|split; discriminate].
  rewrite String.eqb_eq. split; congruence.
Qed.

Section Loop.

Variable JSON_parse : string -> option json.

Lemma collect_cons r data :
  collect JSON_parse (r :: data) =
  if decide (included r) then
    c ← JSON_parse (ToString (get r "geometry"));
    fs ← collect JSON_parse data;
    Some (feature r c :: fs)
  else collect JSON_parse data.
Proof.
  unfold collect. rewrite filter_cons. case_decide; [|done].
  simpl. by destruct (JSON_parse _).
Qed.

(** The loop leaves the page alone; it ends with the features of the
    included rows after those it started with, or with the first
    [SyntaxError]. *)
Lemma for_in_collect data acc w :
  for_in JSON_parse data acc w =
  (match collect JSON_parse data with
   | Some fs => Return (acc ++ fs)%list
   | None => Throw SyntaxError
   end, w).
Proof.
  revert acc. induction data as [|r data IH]; intros acc.
  - simpl. by rewrite app_nil_r.
  - rewrite collect_cons. simpl.
    destruct (loose_eq_str _ _) eqn:E.
    + apply loose_eq_included in E. rewrite decide_True by done.
      unfold mbind at 1, M_bind, JSON_parse_value.
      destruct (JSON_parse _) as [c|]; simpl; [|done].
      rewrite IH. destruct (collect _ _); simpl; [|done].
      by rewrite <- app_assoc.
    + rewrite decide_False; [apply IH|].
      intros H. apply loose_eq_included in H. congruence.
Qed.

Lemma collect_Some data fs :
  collect JSON_parse data = Some fs <->
  Forall2 (fun r f => exists c,
             JSON_parse (ToString (get r "geometry")) = Some c /\
             f = feature r c)
          (filter included data) fs.
Proof.
  unfold collect. rewrite mapM_Some.
  split; intros H; (eapply Forall2_impl; [exact H|]); intros r f.
  - simpl. destruct (JSON_parse _) as [c|]; simpl; intros [= <-]. eauto.
  - intros (c & -> & ->). done.
Qed.

Lemma collect_None data :
  collect JSON_parse data = None <->
  exists r, r ∈ data /\ included r /\
            JSON_parse (ToString (get r "geometry")) = None.
Proof.
  unfold collect. rewrite mapM_None, Exists_exists. split.
  - intros (r & Hin & Hr). apply list_elem_of_filter in Hin as [? ?].
    exists r. repeat split; auto. by destruct (JSON_parse _).
  - intros (r & Hin & Hi & Hr). exists r. split.
    + apply list_elem_of_filter. done.
    + by rewrite Hr.
Qed.

End Loop.

(** ** The two functions in closed form *)

Section Closed.

Variable JSON_parse : string -> option json.

(** [addPolygons] detaches the old layer, then either stops at a
    [SyntaxError] or attaches a new layer built from the included rows. *)
Lemma addPolygons_unfold data w :
  addPolygons JSON_parse data w =
  let ls := detached (polygonLayer w) (map_layers w) in
  match collect JSON_parse data with
  | None =>
      (Throw SyntaxError,
       {| heap := heap w; next := next w; map_layers := ls;
          polygonLayer := polygonLayer w;
          pointGroupLayer := pointGroupLayer w |})
  | Some fs =>
      (Return tt,
       {| heap := <[next w :=
                    GeoJSON {| collection_type := "FeatureCollection";
                               features := fs |}
                            poylgonStyle (onEachFeature <$> fs)]> (heap w);
          next := S (next w); map_layers := attached (next w) ls;
          polygonLayer := Some (next w);
          pointGroupLayer := pointGroupLayer w |})
  end.
Proof.
  destruct w as [h n ls p g]. unfold addPolygons, attached.
  unfold mbind at 1, M_bind, gets. simpl.
  unfold mbind at 1, M_bind. unfold mbind at 2, M_bind.
  assert (forall l, remove l {| heap := h; next := n; map_layers := ls;
                       polygonLayer := p; pointGroupLayer := g |} =
            (Return tt, {| heap := h; next := n;
                           map_layers := filter (fun l' => l' ≠ l) ls;
                           polygonLayer := p; pointGroupLayer := g |}))
    as Hrm by done.
  destruct p as [l|]; [rewrite Hrm|unfold mret, M_ret]; simpl;
    unfold mbind, M_bind; rewrite for_in_collect;
    (destruct (collect JSON_parse data) as [fs|]; [|done]); simpl;
    unfold addTo_map, mbind, M_bind, gets; simpl;
    case_decide; done.
Qed.

(** One round of the loop of [addPoints] adds one marker to the group. *)
Lemma for_rows_spec data : forall w g ms,
  pointGroupLayer w = Some g ->
  heap w !! g = Some (LayerGroup ms) ->
  g < next w ->
  exists h,
    for_rows data w =
      (Return tt,
       {| heap := h; next := next w + length data;
          map_layers := map_layers w; polygonLayer := polygonLayer w;
          pointGroupLayer := pointGroupLayer w |}) /\
    h !! g = Some (LayerGroup (ms ++ seq (next w) (length data))) /\
    (forall i r, data !! i = Some r ->
       h !! (next w + i) = Some (MarkerObj (marker_of_row r))) /\
    (forall k, k ≠ g -> k < next w \/ next w + length data <= k ->
       h !! k = heap w !! k).
Proof.
  induction data as [|r data IH]; intros w g ms Hslot Hg Hlt.
  - exists (heap w). simpl. rewrite Nat.add_0_r, app_nil_r.
    destruct w; simpl in *. repeat split; auto. intros i r' Hi. done.
  - destruct w as [h n ls p q]. simpl in *. subst q.
    assert (g ≠ n) as Hne by lia.
    set (w2 := {| heap := <[g := LayerGroup (ms ++ [n])]>
                            (<[n := MarkerObj (marker_of_row r)]> h);
                  next := S n; map_layers := ls; polygonLayer := p;
                  pointGroupLayer := Some g |}).
    destruct (IH w2 g (ms ++ [n])) as (h' & Hrun & Hg' & Hmk & Hold);
      [done| |simpl; lia|].
    { simpl. apply lookup_insert_eq. }
    exists h'. simpl in *. repeat split.
    + run. rewrite lookup_insert_ne by done. rewrite Hg.
      run. rewrite lookup_insert_ne by done. rewrite lookup_insert_eq.
      run. rewrite lookup_insert_eq.
      run. rewrite !insert_insert_eq.
      rewrite (insert_insert_ne _ n g) by done.
      rewrite insert_insert_eq.
      fold (marker_of_row r). fold w2. rewrite Hrun.
      by rewrite Nat.add_succ_r.
    + rewrite Hg', <- app_assoc. done.
    + intros [|i] r' Hi; simpl in Hi.
      * injection Hi as <-. rewrite Nat.add_0_r, Hold by lia.
        rewrite lookup_insert_ne by done. apply lookup_insert_eq.
      * rewrite Nat.add_succ_r. by apply Hmk.
    + intros k Hk Hrange. rewrite Hold by lia.
      rewrite !lookup_insert_ne by lia. done.
Qed.

(** [addPoints] detaches the old group and attaches a new one that holds
    one marker per row, in row order. *)
Lemma addPoints_spec data w :
  exists h,
    addPoints data w =
      (Return tt,
       {| heap := h; next := S (next w) + length data;
          map_layers :=
            attached (next w) (detached (pointGroupLayer w) (map_layers w));
          polygonLayer := polygonLayer w;
          pointGroupLayer := Some (next w) |}) /\
    h !! next w = Some (LayerGroup (seq (S (next w)) (length data))) /\
    (forall i r, data !! i = Some r ->
       h !! (S (next w) + i) = Some (MarkerObj (marker_of_row r))) /\
    (forall k, k < next w \/ S (next w) + length data <= k ->
       h !! k = heap w !! k).
Proof.
  destruct w as [h n ls p g].
  set (ls' := attached n (detached g ls)).
  set (w1 := {| heap := <[n := LayerGroup []]> h; next := S n;
                map_layers := ls'; polygonLayer := p;
                pointGroupLayer := Some n |}).
  destruct (for_rows_spec data w1 n []) as (h' & Hrun & Hg & Hmk & Hold);
    [done|apply lookup_insert_eq|simpl; lia|].
  assert (addPoints data {| heap := h; next := n; map_layers := ls;
                            polygonLayer := p; pointGroupLayer := g |} =
          for_rows data w1) as Hstart.
  { unfold addPoints, w1, ls', attached, detached, remove, addTo_map,
      L_layerGroup, set_pointGroupLayer.
    destruct g as [l|]; run; case_decide; done. }
  exists h'. rewrite Hstart, Hrun. simpl in *. repeat split; auto.
  intros k Hk. rewrite Hold by lia. apply lookup_insert_ne. lia.
Qed.

End Closed.

(** ** The page invariant *)

Lemma elem_of_detached slot ls l :
  l ∈ detached slot ls <-> l ∈ ls /\ slot ≠ Some l.
Proof.
  destruct slot as [l0|]; simpl.
  - rewrite list_elem_of_filter. split; intros [? ?]; split; auto; congruence.
  - split; [intros ?; split; [done|discriminate]|tauto].
Qed.

Lemma elem_of_attached l0 ls l :
  l ∈ attached l0 ls <-> l = l0 \/ l ∈ ls.
Proof.
  unfold attached. case_decide.
  - split; [tauto|]. intros [->|?]; done.
  - rewrite elem_of_app, list_elem_of_singleton. tauto.
Qed.

Lemma omap_none {A B} (f : A -> option B) (l : list A) :
  (forall x, x ∈ l -> f x = None) -> omap f l = [].
Proof.
  induction l as [|x l IH]; intros H; [done|].
  simpl. rewrite (H x) by left. apply IH. intros y Hy. apply H. by right.
Qed.

Lemma filter_none {A} (P : A -> Prop) `{!forall x, Decision (P x)} (l : list A) :
  (forall x, x ∈ l -> ~ P x) -> filter P l = [].
Proof.
  induction l as [|x l IH]; intros Hall; [done|].
  rewrite filter_cons_False by (apply Hall; left).
  apply IH. intros y Hy. apply Hall. by right.
Qed.

Section Invariant.

Variable JSON_parse : string -> option json.

Lemma wf_init : wf init.
Proof.
  split; simpl.
  - intros k [o Hk]. apply lookup_singleton_Some in Hk as [<- _]. lia.
  - intros l Hl. apply list_elem_of_singleton in Hl as ->.
    rewrite lookup_singleton_eq. eauto.
  - intros l Hl. apply list_elem_of_singleton in Hl as ->.
    rewrite lookup_singleton_eq. done.
  - intros l Hl. apply list_elem_of_singleton in Hl as ->.
    rewrite lookup_singleton_eq. done.
  - done.
  - done.
Qed.

Lemma polygon_slot_fresh w l : wf w -> polygonLayer w = Some l -> l < next w.
Proof.
  intros Hwf Hl. apply (wf_fresh _ Hwf).
  apply (wf_polygon_slot _ Hwf) in Hl. by destruct (heap w !! l).
Qed.

Lemma point_slot_fresh w g : wf w -> pointGroupLayer w = Some g -> g < next w.
Proof.
  intros Hwf Hg. apply (wf_fresh _ Hwf).
  apply (wf_point_slot _ Hwf) in Hg. by destruct (heap w !! g).
Qed.

(** A new handle is not on the map. *)
Lemma wf_next_not_attached w slot :
  wf w -> next w ∉ detached slot (map_layers w).
Proof.
  intros Hwf Hin. apply elem_of_detached in Hin as [Hin _].
  apply (wf_attached _ Hwf), (wf_fresh _ Hwf) in Hin. lia.
Qed.

Lemma attached_fresh w slot :
  wf w ->
  attached (next w) (detached slot (map_layers w)) =
  detached slot (map_layers w) ++ [next w].
Proof.
  intros Hwf. unfold attached. rewrite decide_False; [done|].
  by apply wf_next_not_attached.
Qed.

(** Once the layer of [polygonLayer] is off the map, no polygon layer is
    left on it. *)
Lemma detached_no_polygon w l :
  wf w -> l ∈ detached (polygonLayer w) (map_layers w) ->
  is_geojson (heap w !! l) = false.
Proof.
  intros Hwf Hin. apply elem_of_detached in Hin as [Hin Hne].
  destruct (is_geojson (heap w !! l)) eqn:E; [|done].
  destruct Hne. apply (wf_polygons _ Hwf); [done|]. by rewrite E.
Qed.

Lemma detached_no_group w l :
  wf w -> l ∈ detached (pointGroupLayer w) (map_layers w) ->
  is_group (heap w !! l) = false.
Proof.
  intros Hwf Hin. apply elem_of_detached in Hin as [Hin Hne].
  destruct (is_group (heap w !! l)) eqn:E; [|done].
  destruct Hne. apply (wf_points _ Hwf); [done|]. by rewrite E.
Qed.

Lemma wf_addPolygons data w :
  wf w -> wf (exec (addPolygons JSON_parse data) w).
Proof.
  intros Hwf. unfold exec. rewrite addPolygons_unfold. simpl.
  destruct (collect JSON_parse data) as [fs|]; simpl.
  - split; simpl.
    + intros k Hk. destruct (decide (k = next w)) as [->|Hne]; [lia|].
      rewrite lookup_insert_ne in Hk by done.
      apply (wf_fresh _ Hwf) in Hk. lia.
    + intros l Hl. apply elem_of_attached in Hl as [->|Hl].
      * rewrite lookup_insert_eq. eauto.
      * apply elem_of_detached in Hl as [Hl _].
        pose proof (wf_attached _ Hwf _ Hl) as Hs.
        pose proof (wf_fresh _ Hwf _ Hs).
        rewrite lookup_insert_ne by lia. done.
    + intros l Hl Hg. apply elem_of_attached in Hl as [->|Hl]; [done|].
      pose proof (detached_no_polygon _ _ Hwf Hl) as Hno.
      apply elem_of_detached in Hl as [Hl _].
      pose proof (wf_fresh _ Hwf _ (wf_attached _ Hwf _ Hl)).
      rewrite lookup_insert_ne in Hg by lia. by rewrite Hno in Hg.
    + intros l Hl Hg. apply elem_of_attached in Hl as [->|Hl].
      * by rewrite lookup_insert_eq in Hg.
      * apply elem_of_detached in Hl as [Hl _].
        pose proof (wf_fresh _ Hwf _ (wf_attached _ Hwf _ Hl)).
        rewrite lookup_insert_ne in Hg by lia.
        by apply (wf_points _ Hwf).
    + intros l [= <-]. by rewrite lookup_insert_eq.
    + intros g Hg. pose proof (point_slot_fresh _ _ Hwf Hg).
      rewrite lookup_insert_ne by lia. by apply (wf_point_slot _ Hwf).
  - split; simpl.
    + apply (wf_fresh _ Hwf).
    + intros l Hl. apply elem_of_detached in Hl as [Hl _].
      by apply (wf_attached _ Hwf).
    + intros l Hl Hg. pose proof (detached_no_polygon _ _ Hwf Hl) as Hno.
      by rewrite Hno in Hg.
    + intros l Hl Hg. apply elem_of_detached in Hl as [Hl _].
      by apply (wf_points _ Hwf).
    + apply (wf_polygon_slot _ Hwf).
    + apply (wf_point_slot _ Hwf).
Qed.

Lemma wf_addPoints data w : wf w -> wf (exec (addPoints data) w).
Proof.
  intros Hwf. unfold exec.
  destruct (addPoints_spec data w) as (h & -> & Hg & Hmk & Hold). simpl.
  assert (forall l, l ∈ map_layers w -> l < next w /\ h !! l = heap w !! l)
    as Hkeep.
  { intros l Hl. pose proof (wf_fresh _ Hwf _ (wf_attached _ Hwf _ Hl)).
    split; [done|]. apply Hold. lia. }
  split; simpl.
  - intros k Hk.
    destruct (decide (S (next w) + length data <= k)) as [Hle|]; [|lia].
    rewrite Hold in Hk by lia. apply (wf_fresh _ Hwf) in Hk. lia.
  - intros l Hl. apply elem_of_attached in Hl as [->|Hl].
    + rewrite Hg. eauto.
    + apply elem_of_detached in Hl as [Hl _].
      destruct (Hkeep l Hl) as [_ ->]. by apply (wf_attached _ Hwf).
  - intros l Hl Hp. apply elem_of_attached in Hl as [->|Hl].
    + by rewrite Hg in Hp.
    + apply elem_of_detached in Hl as [Hl _].
      destruct (Hkeep l Hl) as [_ Heq]. rewrite Heq in Hp.
      by apply (wf_polygons _ Hwf).
  - intros l Hl Hp. apply elem_of_attached in Hl as [->|Hl]; [done|].
    pose proof (detached_no_group _ _ Hwf Hl) as Hno.
    apply elem_of_detached in Hl as [Hl _].
    destruct (Hkeep l Hl) as [_ Heq]. rewrite Heq in Hp.
    by rewrite Hno in Hp.
  - intros l Hl. pose proof (polygon_slot_fresh _ _ Hwf Hl).
    rewrite Hold by lia. by apply (wf_polygon_slot _ Hwf).
  - intros g [= <-]. by rewrite Hg.
Qed.

Lemma reachable_wf w : reachable JSON_parse w -> wf w.
Proof.
  induction 1; auto using wf_init, wf_addPolygons, wf_addPoints.
Qed.

End Invariant.

(** ** Lists: the position of a kept element *)

Section FilterOrder.

Context {A : Type} (P : A -> Prop) `{!forall x, Decision (P x)}.

(** A kept element sits behind the kept elements that come before it. *)
Lemma filter_lookup_take (l : list A) i x :
  l !! i = Some x -> P x ->
  filter P l !! length (filter P (take i l)) = Some x.
Proof.
  intros Hi Hx.
  transitivity
    (filter P (take i l ++ x :: drop (S i) l) !! length (filter P (take i l))).
  { by rewrite take_drop_middle. }
  rewrite filter_app, filter_cons_True by done.
  by apply list_lookup_middle.
Qed.

Lemma filter_take_lt (l : list A) i j x :
  l !! i = Some x -> P x -> i < j ->
  length (filter P (take i l)) < length (filter P (take j l)).
Proof.
  intros Hi Hx Hij.
  replace j with (S i + (j - S i)) by lia.
  rewrite <- take_take_drop, (take_S_r l i x Hi).
  rewrite !filter_app, !length_app, filter_cons_True by done.
  simpl. lia.
Qed.

End FilterOrder.

(** ** The polygon layer after a build *)

Section Polygons.

Variable JSON_parse : string -> option json.

(** A build that returns has parsed every included row and shows the
    collection of their features. *)
Lemma addPolygons_rendered data w w' :
  addPolygons JSON_parse data w = (Return tt, w') ->
  exists fs,
    collect JSON_parse data = Some fs /\
    rendered_collection w' =
      Some {| collection_type := "FeatureCollection"; features := fs |}.
Proof.
  rewrite addPolygons_unfold. simpl.
  destruct (collect JSON_parse data) as [fs|]; [|discriminate].
  intros [= <-]. exists fs. split; [done|].
  unfold rendered_collection. simpl.
  rewrite decide_True by (apply elem_of_attached; by left).
  by rewrite lookup_insert_eq.
Qed.

(** A build that throws has met an included row that does not parse, and
    has only taken the old layer off the map. *)
Lemma addPolygons_thrown data w e w' :
  addPolygons JSON_parse data w = (Throw e, w') ->
  collect JSON_parse data = None /\ e = SyntaxError /\
  w' = {| heap := heap w; next := next w;
          map_layers := detached (polygonLayer w) (map_layers w);
          polygonLayer := polygonLayer w;
          pointGroupLayer := pointGroupLayer w |}.
Proof.
  rewrite addPolygons_unfold. simpl.
  destruct (collect JSON_parse data) as [fs|]; [discriminate|].
  intros [= <- <-]. done.
Qed.

(** After a build, the polygon layers on the map are the new layer alone,
    or none when the build threw. *)
Lemma polygon_layers_after data w :
  wf w ->
  polygon_layers (exec (addPolygons JSON_parse data) w) =
  match collect JSON_parse data with
  | Some _ => [next w]
  | None => []
  end.
Proof.
  intros Hwf. unfold exec. rewrite addPolygons_unfold. simpl.
  destruct (collect JSON_parse data) as [fs|]; unfold polygon_layers; simpl.
  - rewrite attached_fresh by done. rewrite filter_app.
    rewrite filter_none, filter_cons_True; [done| |].
    + by rewrite lookup_insert_eq.
    + intros l Hl. pose proof (detached_no_polygon _ _ Hwf Hl) as Hno.
      apply elem_of_detached in Hl as [Hl _].
      pose proof (wf_fresh _ Hwf _ (wf_attached _ Hwf _ Hl)).
      rewrite lookup_insert_ne by lia. by apply Is_true_false.
  - apply filter_none. intros l Hl.
    apply Is_true_false. by apply detached_no_polygon.
Qed.

Lemma polygon_layers_bound data w :
  wf w -> length (polygon_layers (exec (addPolygons JSON_parse data) w)) <= 1.
Proof.
  intros Hwf. rewrite polygon_layers_after by done.
  destruct (collect JSON_parse data); simpl; lia.
Qed.

End Polygons.

(** ** Claims about [addPolygons] *)

(** C1.  For every table, a build that returns shows exactly one feature per
    row whose [include] cell is the string ["y"], matched position by
    position with those rows: a row with any other [include] cell, or with
    none, contributes no feature. *)
Theorem addPolygons_includes_exactly_y
    (JSON_parse : string -> option json) (data : list row) (w w' : World) :
  addPolygons JSON_parse data w = (Return tt, w') ->
  exists fc,
    rendered_collection w' = Some fc /\
    length (features fc) = length (filter included data) /\
    Forall2 (fun r f => exists c,
               JSON_parse (ToString (get r "geometry")) = Some c /\
               f = feature r c)
            (filter included data) (features fc).
Proof.
  intros Hrun. apply addPolygons_rendered in Hrun as (fs & Hfs & Hshown).
  apply collect_Some in Hfs. eexists. split; [exact Hshown|]. simpl.
  split; [|done]. symmetry. by eapply Forall2_length.
Qed.

(** The table of the specification's example, flags ["y"], ["n"], ["Y"],
    followed by a row without the column, an untrimmed flag and an empty
    one. *)
Lemma addPolygons_includes_exactly_y_witness :
  let data := [Sample.utah; Sample.ohio; Sample.iowa; Sample.texas;
               Sample.idaho; Sample.nevada] in
  filter included data = [Sample.utah] /\
  exists fc,
    rendered_collection (exec (addPolygons json_parse data) init) = Some fc /\
    length (features fc) = length (filter included data) /\
    Forall2 (fun r f => exists c,
               json_parse (ToString (get r "geometry")) = Some c /\
               f = feature r c)
            (filter included data) (features fc).
Proof.
  intros data. split; [vm_compute; reflexivity|].
  apply (addPolygons_includes_exactly_y json_parse data init).
  vm_compute. reflexivity.
Defined.

(** C2, as the code has it.  If some row that is flagged for the map (its
    [include] cell is ["y"]) has a [geometry] that does not parse, the build
    throws a [SyntaxError]: no layer is created, nothing is attached to the
    map, [polygonLayer] keeps its value and no collection is shown.  A row
    that is not flagged is never parsed. *)
Theorem addPolygons_fails_on_included_malformed
    (JSON_parse : string -> option json) (data : list row) (w : World) :
  (exists r, r ∈ data /\ included r /\
             JSON_parse (ToString (get r "geometry")) = None) ->
  exists w',
    addPolygons JSON_parse data w = (Throw SyntaxError, w') /\
    heap w' = heap w /\ next w' = next w /\
    polygonLayer w' = polygonLayer w /\
    map_layers w' = detached (polygonLayer w) (map_layers w) /\
    rendered_collection w' = None.
Proof.
  intros Hbad. apply collect_None in Hbad.
  rewrite addPolygons_unfold, Hbad. simpl. eexists. split; [done|].
  repeat split. unfold rendered_collection. simpl.
  destruct (polygonLayer w) as [l|]; [simpl|done].
  rewrite decide_False; [done|].
  rewrite list_elem_of_filter. tauto.
Qed.

Lemma addPolygons_fails_on_included_malformed_witness :
  let data := [Sample.utah; Sample.broken; Sample.maine] in
  exists w',
    addPolygons json_parse data init = (Throw SyntaxError, w') /\
    heap w' = heap init /\ next w' = next init /\
    polygonLayer w' = polygonLayer init /\
    map_layers w' = detached (polygonLayer init) (map_layers init) /\
    rendered_collection w' = None.
Proof.
  intros data.
  apply (addPolygons_fails_on_included_malformed json_parse data init).
  exists Sample.broken. split; [|split].
  - unfold data. set_solver.
  - vm_compute. reflexivity.
  - vm_compute. reflexivity.
Defined.

(** C2 as stated fails: a table whose only row has a [geometry] that is not
    JSON, but is flagged ["n"], builds without an exception and its (empty)
    collection is attached to the map. *)
Lemma addPolygons_skips_unflagged_malformed :
  let data := [Sample.skipped_broken] in
  (exists r, r ∈ data /\ json_parse (ToString (get r "geometry")) = None) /\
  (addPolygons json_parse data init).1 = Return tt /\
  rendered_collection (exec (addPolygons json_parse data) init) =
    Some {| collection_type := "FeatureCollection"; features := [] |} /\
  map_layers (exec (addPolygons json_parse data) init) = [0; 1].
Proof.
  intros data. split; [|split; [|split]].
  - exists Sample.skipped_broken. split; [unfold data; set_solver|].
    vm_compute. reflexivity.
  - vm_compute. reflexivity.
  - vm_compute. reflexivity.
  - vm_compute. reflexivity.
Qed.

(** C5.  Every row that passes the inclusion filter has its feature at the
    same position among the features of a build that returns, and the
    properties of that feature have exactly the keys [name], [summary],
    [state] and [local], each bound to what reading that column of the row
    gives: the cell as it is, or [undefined] when the row has no such cell. *)
Theorem addPolygons_properties_verbatim
    (JSON_parse : string -> option json) (data : list row) (w w' : World)
    (i : nat) (r : row) :
  addPolygons JSON_parse data w = (Return tt, w') ->
  filter included data !! i = Some r ->
  exists fc f,
    rendered_collection w' = Some fc /\
    features fc !! i = Some f /\
    dom (properties f) = ({[ "name"; "summary"; "state"; "local" ]} : gset string) /\
    (forall k, k ∈ dom (properties f) -> properties f !! k = Some (get r k)) /\
    (forall k s, k ∈ dom (properties f) -> r !! k = Some s ->
                 properties f !! k = Some (VStr s)).
Proof.
  intros Hrun Hi. apply addPolygons_rendered in Hrun as (fs & Hfs & Hshown).
  apply collect_Some in Hfs.
  destruct (Forall2_lookup_l _ _ _ _ _ Hfs Hi) as (f & Hf & c & _ & ->).
  exists {| collection_type := "FeatureCollection"; features := fs |},
         (feature r c).
  assert (dom (properties (feature r c)) =
          ({[ "name"; "summary"; "state"; "local" ]} : gset string)) as Hdom.
  { simpl. rewrite !dom_insert_L, dom_singleton_L. set_solver. }
  assert (forall k, k ∈ dom (properties (feature r c)) ->
                    properties (feature r c) !! k = Some (get r k)) as Hget.
  { intros k. rewrite Hdom. rewrite !elem_of_union, !elem_of_singleton.
    intros [[[-> | ->] | ->] | ->]; simpl; by simplify_map_eq. }
  repeat split; auto.
  intros k s Hk Hs. rewrite (Hget k Hk). unfold get. by rewrite Hs.
Qed.

Lemma addPolygons_properties_verbatim_witness :
  let data := [Sample.ohio; Sample.utah; Sample.maine] in
  exists fc f,
    rendered_collection (exec (addPolygons json_parse data) init) = Some fc /\
    features fc !! 1 = Some f /\
    dom (properties f) = ({[ "name"; "summary"; "state"; "local" ]} : gset string) /\
    (forall k, k ∈ dom (properties f) ->
               properties f !! k = Some (get Sample.maine k)) /\
    (forall k s, k ∈ dom (properties f) -> Sample.maine !! k = Some s ->
                 properties f !! k = Some (VStr s)).
Proof.
  intros data.
  apply (addPolygons_properties_verbatim json_parse data init).
  - vm_compute. reflexivity.
  - vm_compute. reflexivity.
Defined.

(** C8.  The collection a build shows is tagged ["FeatureCollection"], and
    each of its features is tagged ["Feature"] with a geometry tagged
    ["MultiPolygon"], whatever the rows are. *)
Theorem addPolygons_types
    (JSON_parse : string -> option json) (data : list row) (w w' : World) :
  addPolygons JSON_parse data w = (Return tt, w') ->
  exists fc,
    rendered_collection w' = Some fc /\
    collection_type fc = "FeatureCollection" /\
    Forall (fun f => feature_type f = "Feature" /\
                     geometry_type (geometry f) = "MultiPolygon")
           (features fc).
Proof.
  intros Hrun. apply addPolygons_rendered in Hrun as (fs & Hfs & Hshown).
  apply collect_Some in Hfs. eexists. split; [exact Hshown|].
  split; [done|]. simpl.
  eapply Forall2_Forall_r; [exact Hfs|]. apply Forall_forall.
  intros r _ f (c & _ & ->). done.
Qed.

Lemma addPolygons_types_witness :
  let data := [Sample.utah; Sample.ohio; Sample.maine] in
  exists fc,
    rendered_collection (exec (addPolygons json_parse data) init) = Some fc /\
    collection_type fc = "FeatureCollection" /\
    Forall (fun f => feature_type f = "Feature" /\
                     geometry_type (geometry f) = "MultiPolygon")
           (features fc).
Proof.
  intros data. apply (addPolygons_types json_parse data init).
  vm_compute. reflexivity.
Defined.

(** C10.  Features keep the order of their rows: in a build that returns,
    the feature of an included row sits at the position given by the number
    of included rows before it, so of two included rows the earlier one has
    the earlier feature. *)
Theorem addPolygons_keeps_row_order
    (JSON_parse : string -> option json) (data : list row) (w w' : World)
    (i j : nat) (ri rj : row) :
  addPolygons JSON_parse data w = (Return tt, w') ->
  data !! i = Some ri -> data !! j = Some rj ->
  included ri -> included rj -> i < j ->
  exists fc ci cj,
    rendered_collection w' = Some fc /\
    JSON_parse (ToString (get ri "geometry")) = Some ci /\
    JSON_parse (ToString (get rj "geometry")) = Some cj /\
    features fc !! length (filter included (take i data))
      = Some (feature ri ci) /\
    features fc !! length (filter included (take j data))
      = Some (feature rj cj) /\
    length (filter included (take i data))
      < length (filter included (take j data)).
Proof.
  intros Hrun Hi Hj Pi Pj Hij.
  apply addPolygons_rendered in Hrun as (fs & Hfs & Hshown).
  apply collect_Some in Hfs.
  pose proof (filter_lookup_take included data i ri Hi Pi) as Hi'.
  pose proof (filter_lookup_take included data j rj Hj Pj) as Hj'.
  destruct (Forall2_lookup_l _ _ _ _ _ Hfs Hi') as (fi & Hfi & ci & Hci & ->).
  destruct (Forall2_lookup_l _ _ _ _ _ Hfs Hj') as (fj & Hfj & cj & Hcj & ->).
  exists {| collection_type := "FeatureCollection"; features := fs |}, ci, cj.
  repeat split; auto. by eapply filter_take_lt.
Qed.

Lemma addPolygons_keeps_row_order_witness :
  let data := [Sample.ohio; Sample.utah; Sample.iowa; Sample.maine] in
  exists fc ci cj,
    rendered_collection (exec (addPolygons json_parse data) init) = Some fc /\
    json_parse (ToString (get Sample.utah "geometry")) = Some ci /\
    json_parse (ToString (get Sample.maine "geometry")) = Some cj /\
    features fc !! length (filter included (take 1 data))
      = Some (feature Sample.utah ci) /\
    features fc !! length (filter included (take 3 data))
      = Some (feature Sample.maine cj) /\
    length (filter included (take 1 data))
      < length (filter included (take 3 data)).
Proof.
  intros data.
  apply (addPolygons_keeps_row_order json_parse data init _ 1 3).
  - vm_compute. reflexivity.
  - reflexivity.
  - reflexivity.
  - vm_compute. reflexivity.
  - vm_compute. reflexivity.
  - lia.
Defined.

(** C9.  A build that throws is not undone: whatever the page was, it has
    already taken the layer of [polygonLayer] off the map, so no polygon
    layer is attached any more, while [polygonLayer] still refers to the
    layer that was taken off and no new layer exists. *)
Theorem addPolygons_failure_detaches
    (JSON_parse : string -> option json) (data : list row) (w w' : World)
    (e : exn) :
  reachable JSON_parse w ->
  addPolygons JSON_parse data w = (Throw e, w') ->
  e = SyntaxError /\
  polygon_layers w' = [] /\
  rendered_collection w' = None /\
  polygonLayer w' = polygonLayer w /\
  (forall l, polygonLayer w = Some l -> l ∉ map_layers w') /\
  heap w' = heap w /\ next w' = next w.
Proof.
  intros Hreach Hrun. apply reachable_wf in Hreach as Hwf.
  apply addPolygons_thrown in Hrun as (_ & -> & ->). simpl.
  repeat split; auto.
  - unfold polygon_layers. simpl. apply filter_none.
    intros l Hl. apply Is_true_false. by apply detached_no_polygon.
  - unfold rendered_collection. simpl.
    destruct (polygonLayer w) as [l|]; [simpl|done].
    rewrite decide_False; [done|]. rewrite list_elem_of_filter. tauto.
  - intros l -> Hl. apply elem_of_detached in Hl as [_ Hl]. done.
Qed.

(** A first table builds a layer; the next one has a broken row. *)
Lemma addPolygons_failure_detaches_witness :
  let w := exec (addPolygons json_parse [Sample.utah]) init in
  let w' := exec (addPolygons json_parse [Sample.maine; Sample.broken]) w in
  (polygon_layers w = [1] /\ polygonLayer w = Some 1) /\
  SyntaxError = SyntaxError /\
  polygon_layers w' = [] /\
  rendered_collection w' = None /\
  polygonLayer w' = polygonLayer w /\
  (forall l, polygonLayer w = Some l -> l ∉ map_layers w') /\
  heap w' = heap w /\ next w' = next w.
Proof.
  intros w w'. split; [split; vm_compute; reflexivity|].
  apply (addPolygons_failure_detaches json_parse
           [Sample.maine; Sample.broken] w w' SyntaxError).
  - apply reach_polygons, reach_init.
  - vm_compute. reflexivity.
Defined.

(** C6.  On any page the script can reach, a build that returns leaves
    exactly one polygon layer on the map, the new one, to which
    [polygonLayer] refers; after a second such build the layer of the first
    is off the map and again exactly one polygon layer, the second, is
    attached.  No call, returning or not, leaves more than one. *)
Theorem addPolygons_single_layer
    (JSON_parse : string -> option json) (d1 d2 : list row) (w w1 w2 : World) :
  reachable JSON_parse w ->
  addPolygons JSON_parse d1 w = (Return tt, w1) ->
  addPolygons JSON_parse d2 w1 = (Return tt, w2) ->
  (exists l1 l2,
     (polygon_layers w1 = [l1] /\ polygonLayer w1 = Some l1) /\
     (polygon_layers w2 = [l2] /\ polygonLayer w2 = Some l2) /\
     l1 ≠ l2 /\ l1 ∉ map_layers w2) /\
  (forall d, length (polygon_layers (exec (addPolygons JSON_parse d) w)) <= 1).
Proof.
  intros Hreach H1 H2. apply reachable_wf in Hreach as Hwf.
  split; [|intros d; by apply polygon_layers_bound].
  assert (forall d v v', wf v ->
            addPolygons JSON_parse d v = (Return tt, v') ->
            wf v' /\ polygon_layers v' = [next v] /\
            polygonLayer v' = Some (next v) /\ next v' = S (next v) /\
            map_layers v' =
              detached (polygonLayer v) (map_layers v) ++ [next v])
    as Hone.
  { intros d v v' Hv Hrun.
    pose proof (wf_addPolygons JSON_parse d v Hv) as Hv'.
    pose proof (polygon_layers_after JSON_parse d v Hv) as Hlayers.
    unfold exec in Hv', Hlayers. rewrite Hrun in Hv', Hlayers.
    rewrite addPolygons_unfold in Hrun. simpl in *.
    destruct (collect JSON_parse d) as [fs|]; [|discriminate].
    injection Hrun as <-. simpl.
    split; [exact Hv'|]. split; [exact Hlayers|].
    split; [done|]. split; [done|]. by apply attached_fresh. }
  destruct (Hone _ _ _ Hwf H1) as (Hwf1 & Hp1 & Hs1 & Hn1 & _).
  destruct (Hone _ _ _ Hwf1 H2) as (_ & Hp2 & Hs2 & _ & Hm2).
  exists (next w), (next w1). repeat split; auto; [lia|].
  rewrite Hm2, Hs1. intros Hin. apply elem_of_app in Hin as [Hin|Hin].
  - apply elem_of_detached in Hin as [_ Hne]. by destruct Hne.
  - apply list_elem_of_singleton in Hin. lia.
Qed.

Lemma addPolygons_single_layer_witness :
  let w1 := exec (addPolygons json_parse [Sample.utah; Sample.ohio]) init in
  let w2 := exec (addPolygons json_parse [Sample.maine]) w1 in
  (exists l1 l2,
     (polygon_layers w1 = [l1] /\ polygonLayer w1 = Some l1) /\
     (polygon_layers w2 = [l2] /\ polygonLayer w2 = Some l2) /\
     l1 ≠ l2 /\ l1 ∉ map_layers w2) /\
  (forall d, length (polygon_layers (exec (addPolygons json_parse d) init)) <= 1).
Proof.
  intros w1 w2.
  apply (addPolygons_single_layer json_parse
           [Sample.utah; Sample.ohio] [Sample.maine] init w1 w2).
  - apply reach_init.
  - vm_compute. reflexivity.
  - vm_compute. reflexivity.
Defined.

(** ** The point layer after a build *)

(** Handles handed out in a row, one per row of the table, resolve to the
    rows' markers in table order. *)
Lemma markers_in_row_order (h : gmap nat object) (b : nat) (data : list row) :
  (forall i r, data !! i = Some r ->
     h !! (b + i) = Some (MarkerObj (marker_of_row r))) ->
  (fun m => h !! m) <$> seq b (length data) =
  (fun r => Some (MarkerObj (marker_of_row r))) <$> data.
Proof.
  intros Hmk. apply list_eq. intros i. rewrite !list_lookup_fmap.
  destruct (data !! i) as [r|] eqn:Hi; simpl.
  - rewrite lookup_seq_lt by (by eapply lookup_lt_Some). simpl.
    f_equal. by apply Hmk.
  - rewrite lookup_seq_ge; [done|]. by apply lookup_ge_None.
Qed.

(** C3.  [getColor] is a total lookup: ["Bag Ban"] gives green,
    ["Recycling"] gives blue, and every other argument gives green, the empty
    string, ["Composting"] and [undefined] among them. *)
Theorem getColor_table :
  getColor (VStr "Bag Ban") = "green" /\
  getColor (VStr "Recycling") = "blue" /\
  getColor (VStr "") = "green" /\
  getColor (VStr "Composting") = "green" /\
  getColor VUndef = "green" /\
  forall s, getColor (VStr s) =
            if decide (s = "Recycling") then "blue" else "green".
Proof.
  repeat split. intros s. unfold getColor, strict_eq_str.
  destruct (String.eqb s "Bag Ban") eqn:Hbag.
  - apply String.eqb_eq in Hbag as ->. done.
  - case_decide as Hrec.
    + subst s. done.
    + apply String.eqb_neq in Hrec. by rewrite Hrec.
Qed.

(** C4.  For a table of N rows, on any page, [addPoints] returns and leaves
    [pointGroupLayer] on the map with exactly N markers under N distinct
    handles, the i-th marker made from the i-th row: its position is the
    row's [lat] and [long] as read, numeric or not, present or not. *)
Theorem addPoints_one_marker_per_row (data : list row) (w : World) :
  exists w' g ms,
    addPoints data w = (Return tt, w') /\
    pointGroupLayer w' = Some g /\ g ∈ map_layers w' /\
    heap w' !! g = Some (LayerGroup ms) /\
    length ms = length data /\ NoDup ms /\
    rendered_markers w' =
      Some ((fun r => Some (MarkerObj (marker_of_row r))) <$> data) /\
    forall i r, data !! i = Some r ->
      exists m, ms !! i = Some m /\
                heap w' !! m = Some (MarkerObj (marker_of_row r)) /\
                latlng (marker_of_row r) = (get r "lat", get r "long").
Proof.
  destruct (addPoints_spec data w) as (h & Hrun & Hg & Hmk & _).
  eexists _, (next w), (seq (S (next w)) (length data)).
  split; [exact Hrun|]. simpl.
  assert (next w ∈ attached (next w)
                     (detached (pointGroupLayer w) (map_layers w))) as Hin.
  { apply elem_of_attached. by left. }
  repeat split; auto.
  - apply length_seq.
  - apply NoDup_seq.
  - unfold rendered_markers. simpl. rewrite decide_True by done.
    rewrite Hg. f_equal. by apply markers_in_row_order.
  - intros i r Hi. exists (S (next w) + i). repeat split.
    + apply lookup_seq_lt. by eapply lookup_lt_Some.
    + by apply Hmk.
Qed.

(** The sample laws table, whose last row has no usable coordinates. *)
Example addPoints_sample :
  let w' := exec (addPoints [Sample.austin; Sample.oregon; Sample.nowhere]) init in
  rendered_markers w' =
    Some [Some (MarkerObj (marker_of_row Sample.austin));
          Some (MarkerObj (marker_of_row Sample.oregon));
          Some (MarkerObj (marker_of_row Sample.nowhere))] /\
  latlng (marker_of_row Sample.nowhere) = (VStr "north", VUndef) /\
  markerColor (marker_icon_of Sample.oregon) = "blue".
Proof. vm_compute. repeat split. Qed.

(** ** Replacing a layer *)

Section Replace.

Variable JSON_parse : string -> option json.

(** After a build, the polygon layers on the map are the new layer alone,
    or none when the build threw. *)
Lemma shown_polygons_after data w :
  wf w ->
  shown_polygons (exec (addPolygons JSON_parse data) w) =
  match collect JSON_parse data with
  | Some fs =>
      [GeoJSON {| collection_type := "FeatureCollection"; features := fs |}
               poylgonStyle (onEachFeature <$> fs)]
  | None => []
  end.
Proof.
  intros Hwf. unfold exec. rewrite addPolygons_unfold. simpl.
  destruct (collect JSON_parse data) as [fs|]; unfold shown_polygons; simpl.
  - rewrite attached_fresh by done. rewrite omap_app. simpl.
    rewrite lookup_insert_eq. rewrite omap_none; [done|].
    intros l Hl. pose proof (detached_no_polygon _ _ Hwf Hl) as Hno.
    apply elem_of_detached in Hl as [Hl _].
    pose proof (wf_fresh _ Hwf _ (wf_attached _ Hwf _ Hl)).
    rewrite lookup_insert_ne by lia.
    by destruct (heap w !! l) as [[]|].
  - apply omap_none. intros l Hl.
    pose proof (detached_no_polygon _ _ Hwf Hl) as Hno.
    by destruct (heap w !! l) as [[]|].
Qed.

(** After [addPoints], the point groups on the map are the new group
    alone, with the markers of the table. *)
Lemma shown_points_after data w :
  wf w ->
  shown_points (exec (addPoints data) w) =
  [(fun r => Some (MarkerObj (marker_of_row r))) <$> data].
Proof.
  intros Hwf. unfold exec.
  destruct (addPoints_spec data w) as (h & -> & Hg & Hmk & Hold).
  unfold shown_points. simpl.
  rewrite attached_fresh by done. rewrite omap_app. simpl.
  rewrite Hg, markers_in_row_order by done. rewrite omap_none; [done|].
  intros l Hl. pose proof (detached_no_group _ _ Hwf Hl) as Hno.
  apply elem_of_detached in Hl as [Hl _].
  pose proof (wf_fresh _ Hwf _ (wf_attached _ Hwf _ Hl)).
  rewrite Hold by lia.
  by destruct (heap w !! l) as [[]|].
Qed.

End Replace.

(** C7.  The last build wins, whatever came before: on any page the script
    can reach, the polygon layers shown after building from [d1] and then
    from [d2] are those shown after building from [d2] on the fresh page,
    and likewise for the point groups; nothing of [d1] or of the earlier
    page is kept or merged. *)
Theorem last_build_wins
    (JSON_parse : string -> option json) (w : World)
    (d1 d2 p1 p2 : list row) :
  reachable JSON_parse w ->
  shown_polygons (exec (addPolygons JSON_parse d2)
                    (exec (addPolygons JSON_parse d1) w)) =
    shown_polygons (exec (addPolygons JSON_parse d2) init) /\
  shown_points (exec (addPoints p2) (exec (addPoints p1) w)) =
    shown_points (exec (addPoints p2) init).
Proof.
  intros Hreach. apply reachable_wf in Hreach as Hwf. split.
  - rewrite !shown_polygons_after; auto using wf_init, wf_addPolygons.
  - rewrite !shown_points_after; eauto using wf_init, wf_addPoints.
Qed.

(** The snapshot arrives, then the spreadsheet, on a page that already
    shows both layers. *)
Lemma last_build_wins_witness :
  let w := exec (addPoints [Sample.nowhere])
             (exec (addPolygons json_parse [Sample.iowa; Sample.utah]) init) in
  let d1 := [Sample.utah; Sample.ohio] in
  let d2 := [Sample.maine; Sample.utah] in
  let p1 := [Sample.austin] in
  let p2 := [Sample.oregon; Sample.austin] in
  shown_polygons (exec (addPolygons json_parse d2)
                    (exec (addPolygons json_parse d1) w)) =
    shown_polygons (exec (addPolygons json_parse d2) init) /\
  shown_points (exec (addPoints p2) (exec (addPoints p1) w)) =
    shown_points (exec (addPoints p2) init).
Proof.
  intros w d1 d2 p1 p2.
  apply (last_build_wins json_parse w d1 d2 p1 p2).
  apply reach_points, reach_polygons, reach_init.
Defined.

(** * Further properties of the script *)

(** ** Lists *)

Lemma omap_ext_in {A B} (f g : A -> option B) (l : list A) :
  (forall x, x ∈ l -> f x = g x) -> omap f l = omap g l.
Proof.
  induction l as [|x l IH]; intros Hfg; [done|].
  assert (omap f l = omap g l) as Htail.
  { apply IH. intros y Hy. apply Hfg. by right. }
  simpl. rewrite (Hfg x) by left.
  destruct (g x); [f_equal|]; exact Htail.
Qed.

(** Taking off the map a layer that [f] does not show changes nothing of
    what [f] shows. *)
Lemma omap_detached {B} (f : nat -> option B) slot (ls : list nat) :
  (forall l, slot = Some l -> f l = None) ->
  omap f (detached slot ls) = omap f ls.
Proof.
  destruct slot as [l0|]; [|done]. intros Hf. simpl.
  induction ls as [|l ls IH]; [done|].
  rewrite filter_cons. case_decide as Hl; simpl.
  - destruct (f l); [f_equal|]; exact IH.
  - subst l. by rewrite (Hf l0).
Qed.

Lemma filter_detached (P : nat -> Prop) `{!forall x, Decision (P x)}
    slot (ls : list nat) :
  (forall l, slot = Some l -> ~ P l) ->
  filter P (detached slot ls) = filter P ls.
Proof.
  destruct slot as [l0|]; [|done]. intros Hf. simpl.
  induction ls as [|l ls IH]; [done|].
  rewrite (filter_cons (fun l' => l' ≠ l0)). case_decide as Hl.
  - rewrite !filter_cons, IH. done.
  - subst l. rewrite (filter_cons_False P) by (by apply Hf). done.
Qed.

Lemma filter_ext_in {A} (P Q : A -> Prop)
    `{!forall x, Decision (P x), !forall x, Decision (Q x)} (l : list A) :
  (forall x, x ∈ l -> P x <-> Q x) -> filter P l = filter Q l.
Proof.
  induction l as [|x l IH]; intros Hpq; [done|].
  assert (filter P l = filter Q l) as Htail.
  { apply IH. intros y Hy. apply Hpq. by right. }
  rewrite !filter_cons, Htail.
  apply decide_ext, Hpq. by left.
Qed.

(** ** The object store *)

Section Store.

Variable JSON_parse : string -> option json.

Lemma heap_kept_addPolygons data w k :
  k < next w -> heap (exec (addPolygons JSON_parse data) w) !! k = heap w !! k.
Proof.
  intros Hk. unfold exec. rewrite addPolygons_unfold. simpl.
  destruct (collect JSON_parse data); simpl; [|done].
  apply lookup_insert_ne. lia.
Qed.

Lemma heap_kept_addPoints data w k :
  k < next w -> heap (exec (addPoints data) w) !! k = heap w !! k.
Proof.
  intros Hk. unfold exec.
  destruct (addPoints_spec data w) as (h & -> & _ & _ & Hold). simpl.
  apply Hold. lia.
Qed.

Lemma children_init : children_allocated init.
Proof.
  intros g ms m Hg. simpl in Hg.
  apply lookup_singleton_Some in Hg as [_ [=]].
Qed.

Lemma children_addPolygons data w :
  wf w -> children_allocated w ->
  children_allocated (exec (addPolygons JSON_parse data) w).
Proof.
  intros Hwf Hch g ms m. unfold exec. rewrite addPolygons_unfold. simpl.
  destruct (collect JSON_parse data); simpl.
  - intros Hg Hm. destruct (decide (g = next w)) as [->|Hne].
    + by rewrite lookup_insert_eq in Hg.
    + rewrite lookup_insert_ne in Hg by done.
      pose proof (Hch g ms m Hg Hm). lia.
  - apply Hch.
Qed.

Lemma children_addPoints data w :
  wf w -> children_allocated w ->
  children_allocated (exec (addPoints data) w).
Proof.
  intros Hwf Hch g ms m. unfold exec.
  destruct (addPoints_spec data w) as (h & -> & Hg & Hmk & Hold). simpl.
  intros Hlook Hm.
  destruct (decide (g = next w)) as [->|Hne].
  { rewrite Hg in Hlook. injection Hlook as <-.
    apply elem_of_seq in Hm. lia. }
  destruct (decide (g < next w \/ S (next w) + length data <= g))
    as [Hout|Hin].
  - rewrite Hold in Hlook by done. pose proof (Hch g ms m Hlook Hm). lia.
  - assert (exists i, g = S (next w) + i /\ i < length data) as (i & -> & Hi).
    { exists (g - S (next w)). lia. }
    destruct (lookup_lt_is_Some_2 data i Hi) as [r Hr].
    rewrite (Hmk i r Hr) in Hlook. discriminate.
Qed.

Lemma reachable_children w :
  reachable JSON_parse w -> children_allocated w.
Proof.
  induction 1 as [|data w Hw IH|data w Hw IH].
  - apply children_init.
  - apply children_addPolygons; [by eapply reachable_wf|done].
  - apply children_addPoints; [by eapply reachable_wf|done].
Qed.

End Store.

(** ** The two layers do not disturb each other *)

Lemma addPoints_frame (data : list row) (w : World) :
  wf w ->
  shown_polygons (exec (addPoints data) w) = shown_polygons w /\
  polygon_layers (exec (addPoints data) w) = polygon_layers w /\
  polygonLayer (exec (addPoints data) w) = polygonLayer w /\
  rendered_collection (exec (addPoints data) w) = rendered_collection w.
Proof.
  intros Hwf. unfold exec.
  destruct (addPoints_spec data w) as (h & -> & Hg & Hmk & Hold). simpl.
  assert (forall l, l ∈ map_layers w -> h !! l = heap w !! l) as Hkeep.
  { intros l Hl. apply Hold. left.
    apply (wf_fresh _ Hwf), (wf_attached _ Hwf), Hl. }
  assert (forall g, pointGroupLayer w = Some g ->
                    is_geojson (heap w !! g) = false) as Hslot.
  { intros g Hsl. apply (wf_point_slot _ Hwf) in Hsl.
    by destruct (heap w !! g) as [[]|]. }
  repeat split.
  - unfold shown_polygons. simpl. rewrite attached_fresh by done.
    rewrite omap_app. simpl. rewrite Hg, app_nil_r.
    rewrite <- (omap_detached _ (pointGroupLayer w) (map_layers w)).
    + apply omap_ext_in. intros l Hl. rewrite Hkeep; [done|].
      by apply elem_of_detached in Hl as [? _].
    + intros g Hsl. apply Hslot in Hsl. by destruct (heap w !! g) as [[]|].
  - unfold polygon_layers. simpl. rewrite attached_fresh by done.
    rewrite filter_app.
    rewrite (filter_cons_False _ (next w)) by (rewrite Hg; simpl; tauto).
    rewrite filter_nil, app_nil_r.
    rewrite <- (filter_detached _ (pointGroupLayer w) (map_layers w)).
    + apply filter_ext_in. intros l Hl.
      rewrite Hkeep; [done|]. by apply elem_of_detached in Hl as [? _].
    + intros g Hsl. apply Is_true_false. by apply Hslot.
  - unfold rendered_collection. simpl.
    destruct (polygonLayer w) as [l|] eqn:Hl; [simpl|done].
    pose proof (polygon_slot_fresh _ _ Hwf Hl) as Hlt.
    rewrite Hold by lia. apply decide_ext.
    rewrite elem_of_attached, elem_of_detached. split.
    + intros [->|[? _]]; [lia|done].
    + intros Hin. right. split; [done|]. intros Hsl.
      apply Hslot in Hsl. apply (wf_polygon_slot _ Hwf) in Hl.
      by rewrite Hsl in Hl.
Qed.

(** X1.  On any page the script can reach, [addPoints] leaves the polygon
    layer as it is: the same polygon layers are shown, [polygonLayer] and
    the collection it shows are unchanged. *)
Theorem addPoints_keeps_polygons
    (JSON_parse : string -> option json) (data : list row) (w : World) :
  reachable JSON_parse w ->
  shown_polygons (exec (addPoints data) w) = shown_polygons w /\
  polygon_layers (exec (addPoints data) w) = polygon_layers w /\
  polygonLayer (exec (addPoints data) w) = polygonLayer w /\
  rendered_collection (exec (addPoints data) w) = rendered_collection w.
Proof.
  intros Hreach. apply addPoints_frame. by eapply reachable_wf.
Qed.

Lemma addPoints_keeps_polygons_witness :
  let w := exec (addPolygons json_parse [Sample.utah; Sample.maine]) init in
  let data := [Sample.austin; Sample.nowhere] in
  shown_polygons (exec (addPoints data) w) = shown_polygons w /\
  polygon_layers (exec (addPoints data) w) = polygon_layers w /\
  polygonLayer (exec (addPoints data) w) = polygonLayer w /\
  rendered_collection (exec (addPoints data) w) = rendered_collection w.
Proof.
  intros w data. apply (addPoints_keeps_polygons json_parse data w).
  apply reach_polygons, reach_init.
Defined.

Lemma addPolygons_frame
    (JSON_parse : string -> option json) (data : list row) (w : World) :
  wf w -> children_allocated w ->
  shown_points (exec (addPolygons JSON_parse data) w) = shown_points w /\
  point_groups (exec (addPolygons JSON_parse data) w) = point_groups w /\
  pointGroupLayer (exec (addPolygons JSON_parse data) w) = pointGroupLayer w /\
  rendered_markers (exec (addPolygons JSON_parse data) w) = rendered_markers w.
Proof.
  intros Hwf Hch.
  pose proof (heap_kept_addPolygons JSON_parse data w) as Hold.
  pose proof (wf_addPolygons JSON_parse data w Hwf) as Hwf'.
  set (w' := exec (addPolygons JSON_parse data) w) in *.
  assert (pointGroupLayer w' = pointGroupLayer w) as Hslot'.
  { unfold w', exec. rewrite addPolygons_unfold. simpl.
    by destruct (collect JSON_parse data). }
  assert (exists tail, map_layers w' =
            detached (polygonLayer w) (map_layers w) ++ tail /\
            forall l, l ∈ tail -> l = next w /\ is_geojson (heap w' !! l))
    as (tail & Hls & Htail).
  { unfold w', exec. rewrite addPolygons_unfold. simpl.
    destruct (collect JSON_parse data) as [fs|]; simpl.
    - exists [next w]. rewrite attached_fresh by done. split; [done|].
      intros l Hl. apply list_elem_of_singleton in Hl as ->.
      by rewrite lookup_insert_eq.
    - exists []. rewrite app_nil_r. split; [done|]. intros l Hl.
      by apply elem_of_nil in Hl. }
  assert (forall l, l ∈ map_layers w -> heap w' !! l = heap w !! l) as Hkeep.
  { intros l Hl. apply Hold, (wf_fresh _ Hwf), (wf_attached _ Hwf), Hl. }
  assert (forall l, polygonLayer w = Some l -> is_group (heap w !! l) = false)
    as Hpoly.
  { intros l Hl. apply (wf_polygon_slot _ Hwf) in Hl.
    by destruct (heap w !! l) as [[]|]. }
  assert (forall g ms, heap w !! g = Some (LayerGroup ms) ->
            (fun m => heap w' !! m) <$> ms = (fun m => heap w !! m) <$> ms)
    as Hmarkers.
  { intros g ms Hg. apply list_fmap_ext. intros i m Hm. apply Hold.
    apply (Hch g ms m Hg). by eapply list_elem_of_lookup_2. }
  repeat split.
  - unfold shown_points. rewrite Hls, omap_app.
    rewrite (omap_none _ tail), app_nil_r.
    + rewrite <- (omap_detached _ (polygonLayer w) (map_layers w)).
      * apply omap_ext_in. intros l Hl.
        apply elem_of_detached in Hl as [Hl _]. rewrite (Hkeep l Hl).
        destruct (heap w !! l) as [[| | ms |]|] eqn:Hobj; try done.
        by rewrite (Hmarkers l ms Hobj).
      * intros l Hl. apply Hpoly in Hl. by destruct (heap w !! l) as [[]|].
    + intros l Hl. apply Htail in Hl as [_ Hl].
      by destruct (heap w' !! l) as [[]|].
  - unfold point_groups. rewrite Hls, filter_app.
    rewrite (filter_none _ tail), app_nil_r.
    + rewrite <- (filter_detached _ (polygonLayer w) (map_layers w)).
      * apply filter_ext_in. intros l Hl.
        apply elem_of_detached in Hl as [Hl _]. by rewrite (Hkeep l Hl).
      * intros l Hl. apply Is_true_false. by apply Hpoly.
    + intros l Hl. apply Htail in Hl as [_ Hl].
      destruct (heap w' !! l) as [[]|]; simpl in *; tauto.
  - done.
  - unfold rendered_markers. rewrite Hslot'.
    destruct (pointGroupLayer w) as [g|] eqn:Hg; [simpl|done].
    pose proof (point_slot_fresh _ _ Hwf Hg) as Hlt.
    rewrite Hold by done.
    assert (g ∈ map_layers w' <-> g ∈ map_layers w) as Hiff.
    { rewrite Hls, elem_of_app, elem_of_detached. split.
      - intros [[? _]|Hin]; [done|]. apply Htail in Hin as [-> _]. lia.
      - intros Hin. left. split; [done|]. intros Hl.
        apply Hpoly in Hl. apply (wf_point_slot _ Hwf) in Hg.
        by rewrite Hl in Hg. }
    rewrite (decide_ext _ _ _ _ Hiff). case_decide; [|done].
    destruct (heap w !! g) as [[| | ms |]|] eqn:Hobj; try done.
    by rewrite (Hmarkers g ms Hobj).
Qed.

(** X2.  On any page the script can reach, [addPolygons] leaves the point
    layer as it is, whether it returns or throws: the same groups with the
    same markers are shown and [pointGroupLayer] is unchanged. *)
Theorem addPolygons_keeps_points
    (JSON_parse : string -> option json) (data : list row) (w : World) :
  reachable JSON_parse w ->
  shown_points (exec (addPolygons JSON_parse data) w) = shown_points w /\
  point_groups (exec (addPolygons JSON_parse data) w) = point_groups w /\
  pointGroupLayer (exec (addPolygons JSON_parse data) w) = pointGroupLayer w /\
  rendered_markers (exec (addPolygons JSON_parse data) w) = rendered_markers w.
Proof.
  intros Hreach. apply addPolygons_frame.
  - by eapply reachable_wf.
  - by eapply reachable_children.
Qed.

Lemma addPolygons_keeps_points_witness :
  let w := exec (addPoints [Sample.austin; Sample.oregon])
             (exec (addPolygons json_parse [Sample.utah]) init) in
  let data := [Sample.maine; Sample.broken] in
  shown_points (exec (addPolygons json_parse data) w) = shown_points w /\
  point_groups (exec (addPolygons json_parse data) w) = point_groups w /\
  pointGroupLayer (exec (addPolygons json_parse data) w) = pointGroupLayer w /\
  rendered_markers (exec (addPolygons json_parse data) w) = rendered_markers w.
Proof.
  intros w data. apply (addPolygons_keeps_points json_parse data w).
  apply reach_points, reach_polygons, reach_init.
Defined.

(** ** What every reachable page looks like *)

Lemma NoDup_all_equal {A} (l : list A) :
  NoDup l -> (forall x y, x ∈ l -> y ∈ l -> x = y) -> length l <= 1.
Proof.
  intros Hnd Heq. destruct l as [|x [|y l]]; simpl; [lia|lia|].
  apply NoDup_cons in Hnd as [Hx _]. destruct Hx.
  rewrite (Heq x y); [left|left|right; left].
Qed.

Section Pages.

Variable JSON_parse : string -> option json.

Lemma NoDup_detached slot ls : NoDup ls -> NoDup (detached slot ls).
Proof. destruct slot; [apply NoDup_filter|done]. Qed.

Lemma reachable_NoDup w : reachable JSON_parse w -> NoDup (map_layers w).
Proof.
  induction 1 as [|data w Hw IH|data w Hw IH].
  - apply NoDup_singleton.
  - apply reachable_wf in Hw as Hwf. unfold exec.
    rewrite addPolygons_unfold. simpl.
    destruct (collect JSON_parse data) as [fs|]; simpl.
    + rewrite attached_fresh by done. apply NoDup_app.
      split; [by apply NoDup_detached|]. split; [|apply NoDup_singleton].
      intros l Hl Hn. apply list_elem_of_singleton in Hn as ->.
      by apply (wf_next_not_attached _ _ Hwf) in Hl.
    + by apply NoDup_detached.
  - apply reachable_wf in Hw as Hwf. unfold exec.
    destruct (addPoints_spec data w) as (h & -> & _). simpl.
    rewrite attached_fresh by done. apply NoDup_app.
    split; [by apply NoDup_detached|]. split; [|apply NoDup_singleton].
    intros l Hl Hn. apply list_elem_of_singleton in Hn as ->.
    by apply (wf_next_not_attached _ _ Hwf) in Hl.
Qed.

End Pages.

(** X3.  The basemap is never taken off the map: on every page the script
    can reach, the tile layer created at start-up is still attached. *)
Theorem basemap_stays (JSON_parse : string -> option json) (w : World) :
  reachable JSON_parse w ->
  0 ∈ map_layers w /\ heap w !! 0 = Some TileLayer.
Proof.
  induction 1 as [|data w Hw [Hin Htile]|data w Hw [Hin Htile]].
  - split; [by left|done].
  - apply reachable_wf in Hw as Hwf.
    assert (0 < next w) as Hlt by (apply (wf_fresh _ Hwf); by rewrite Htile).
    split; [|by rewrite heap_kept_addPolygons].
    assert (0 ∈ detached (polygonLayer w) (map_layers w)) as Hdet.
    { apply elem_of_detached. split; [done|]. intros Hslot.
      apply (wf_polygon_slot _ Hwf) in Hslot. by rewrite Htile in Hslot. }
    unfold exec. rewrite addPolygons_unfold. simpl.
    destruct (collect JSON_parse data) as [fs|]; simpl; [|done].
    apply elem_of_attached. by right.
  - apply reachable_wf in Hw as Hwf.
    assert (0 < next w) as Hlt by (apply (wf_fresh _ Hwf); by rewrite Htile).
    split; [|by rewrite heap_kept_addPoints].
    unfold exec. destruct (addPoints_spec data w) as (h & -> & _). simpl.
    apply elem_of_attached. right. apply elem_of_detached.
    split; [done|]. intros Hslot.
    apply (wf_point_slot _ Hwf) in Hslot. by rewrite Htile in Hslot.
Qed.

Lemma basemap_stays_witness :
  let w := arrive json_parse
             [StatesSnapshot [Sample.utah]; LawsSnapshot [Sample.austin];
              StatesSheet [Sample.broken]; LawsSheet []] init in
  0 ∈ map_layers w /\ heap w !! 0 = Some TileLayer.
Proof.
  intros w. apply (basemap_stays json_parse w).
  apply reach_points, reach_polygons, reach_points, reach_polygons, reach_init.
Defined.

(** X4.  On every page the script can reach, no layer is attached twice, at
    most one polygon layer and at most one point group are attached, and an
    attached one is the layer its global refers to. *)
Theorem one_layer_per_kind (JSON_parse : string -> option json) (w : World) :
  reachable JSON_parse w ->
  NoDup (map_layers w) /\
  length (polygon_layers w) <= 1 /\
  length (point_groups w) <= 1 /\
  (forall l, l ∈ polygon_layers w -> polygonLayer w = Some l) /\
  (forall g, g ∈ point_groups w -> pointGroupLayer w = Some g).
Proof.
  intros Hreach. apply reachable_wf in Hreach as Hwf.
  apply reachable_NoDup in Hreach as Hnd.
  assert (forall l, l ∈ polygon_layers w -> polygonLayer w = Some l) as Hp.
  { intros l Hl. apply list_elem_of_filter in Hl as [Hk Hl].
    by apply (wf_polygons _ Hwf). }
  assert (forall g, g ∈ point_groups w -> pointGroupLayer w = Some g) as Hg.
  { intros g Hl. apply list_elem_of_filter in Hl as [Hk Hl].
    by apply (wf_points _ Hwf). }
  repeat split; auto.
  - apply NoDup_all_equal.
    + by apply NoDup_filter.
    + intros x y Hx Hy. apply Hp in Hx, Hy. congruence.
  - apply NoDup_all_equal.
    + by apply NoDup_filter.
    + intros x y Hx Hy. apply Hg in Hx, Hy. congruence.
Qed.

Lemma one_layer_per_kind_witness :
  let w := arrive json_parse
             [LawsSnapshot [Sample.austin]; StatesSnapshot [Sample.utah];
              StatesSheet [Sample.maine; Sample.ohio];
              LawsSheet [Sample.oregon; Sample.nowhere]] init in
  NoDup (map_layers w) /\
  length (polygon_layers w) <= 1 /\
  length (point_groups w) <= 1 /\
  (forall l, l ∈ polygon_layers w -> polygonLayer w = Some l) /\
  (forall g, g ∈ point_groups w -> pointGroupLayer w = Some g).
Proof.
  intros w. apply (one_layer_per_kind json_parse w).
  apply reach_points, reach_polygons, reach_polygons, reach_points, reach_init.
Defined.

(** X5.  [addPoints] only creates objects: on any page the script can
    reach it allocates exactly one group and one marker per row, under
    handles that were unused, and every object that existed before is still
    in the store, unchanged. *)
Theorem addPoints_only_allocates
    (JSON_parse : string -> option json) (data : list row) (w : World) :
  reachable JSON_parse w ->
  next (exec (addPoints data) w) = S (next w) + length data /\
  (forall k o, heap w !! k = Some o ->
               heap (exec (addPoints data) w) !! k = Some o) /\
  (forall k, next w <= k < S (next w) + length data ->
             heap w !! k = None /\
             is_Some (heap (exec (addPoints data) w) !! k)).
Proof.
  intros Hreach. apply reachable_wf in Hreach as Hwf.
  unfold exec.
  destruct (addPoints_spec data w) as (h & -> & Hg & Hmk & Hold). simpl.
  repeat split.
  - intros k o Hk. rewrite Hold; [done|]. left.
    apply (wf_fresh _ Hwf). by rewrite Hk.
  - destruct (heap w !! k) eqn:Hk; [|done].
    assert (k < next w); [|lia]. apply (wf_fresh _ Hwf). by rewrite Hk.
  - destruct (decide (k = next w)) as [->|Hne]; [by rewrite Hg|].
    assert (exists i, k = S (next w) + i /\ i < length data) as (i & -> & Hi).
    { exists (k - S (next w)). lia. }
    destruct (lookup_lt_is_Some_2 data i Hi) as [r Hr].
    by rewrite (Hmk i r Hr).
Qed.

Lemma addPoints_only_allocates_witness :
  let w := exec (addPoints [Sample.austin]) init in
  let data := [Sample.oregon; Sample.nowhere] in
  next (exec (addPoints data) w) = S (next w) + length data /\
  (forall k o, heap w !! k = Some o ->
               heap (exec (addPoints data) w) !! k = Some o) /\
  (forall k, next w <= k < S (next w) + length data ->
             heap w !! k = None /\
             is_Some (heap (exec (addPoints data) w) !! k)).
Proof.
  intros w data. apply (addPoints_only_allocates json_parse data w).
  apply reach_points, reach_init.
Defined.

(** X6.  [addPolygons] only creates objects: on any page the script can
    reach, a build that returns allocates exactly one layer under an unused
    handle, a build that throws allocates nothing, and either way every
    object that existed before is still in the store, unchanged. *)
Theorem addPolygons_only_allocates
    (JSON_parse : string -> option json) (data : list row) (w : World) :
  reachable JSON_parse w ->
  (forall k o, heap w !! k = Some o ->
               heap (exec (addPolygons JSON_parse data) w) !! k = Some o) /\
  match (addPolygons JSON_parse data w).1 with
  | Return _ =>
      next (exec (addPolygons JSON_parse data) w) = S (next w) /\
      heap w !! next w = None /\
      is_geojson (heap (exec (addPolygons JSON_parse data) w) !! next w)
  | Throw _ =>
      next (exec (addPolygons JSON_parse data) w) = next w /\
      heap (exec (addPolygons JSON_parse data) w) = heap w
  end.
Proof.
  intros Hreach. apply reachable_wf in Hreach as Hwf. split.
  - intros k o Hk. rewrite heap_kept_addPolygons; [done|].
    apply (wf_fresh _ Hwf). by rewrite Hk.
  - unfold exec. rewrite addPolygons_unfold. simpl.
    destruct (collect JSON_parse data) as [fs|]; simpl; [|done].
    split; [done|]. split; [|by rewrite lookup_insert_eq].
    destruct (heap w !! next w) eqn:Hk; [|done].
    assert (next w < next w); [|lia]. apply (wf_fresh _ Hwf). by rewrite Hk.
Qed.

Lemma addPolygons_only_allocates_witness :
  let w := exec (addPoints [Sample.austin]) init in
  let data := [Sample.utah; Sample.ohio] in
  (forall k o, heap w !! k = Some o ->
               heap (exec (addPolygons json_parse data) w) !! k = Some o) /\
  match (addPolygons json_parse data w).1 with
  | Return _ =>
      next (exec (addPolygons json_parse data) w) = S (next w) /\
      heap w !! next w = None /\
      is_geojson (heap (exec (addPolygons json_parse data) w) !! next w)
  | Throw _ =>
      next (exec (addPolygons json_parse data) w) = next w /\
      heap (exec (addPolygons json_parse data) w) = heap w
  end.
Proof.
  intros w data. apply (addPolygons_only_allocates json_parse data w).
  apply reach_points, reach_init.
Defined.

(** ** The callbacks, in any order *)

Section Callbacks.

Variable JSON_parse : string -> option json.

Lemma arrive_snoc evs a w :
  arrive JSON_parse (evs ++ [a]) w =
  exec (deliver JSON_parse a) (arrive JSON_parse evs w).
Proof. unfold arrive. by rewrite foldl_app. Qed.

Lemma reachable_arrive evs :
  reachable JSON_parse (arrive JSON_parse evs init).
Proof.
  induction evs as [|a evs IH] using rev_ind; [apply reach_init|].
  rewrite arrive_snoc.
  destruct a; simpl; by constructor.
Qed.

End Callbacks.

(** X7.  Whatever the order in which the four callbacks fire, and however
    often, the polygon layers on the map are those the last states table
    alone would give on the fresh page, and the point groups those the last
    laws table alone would give; before any table of a kind has arrived,
    nothing of that kind is shown. *)
Theorem arrivals_last_table_shown
    (JSON_parse : string -> option json) (evs : list arrival) :
  shown_polygons (arrive JSON_parse evs init) =
    match last (omap states_table evs) with
    | Some d => shown_polygons (exec (addPolygons JSON_parse d) init)
    | None => []
    end /\
  shown_points (arrive JSON_parse evs init) =
    match last (omap laws_table evs) with
    | Some d => shown_points (exec (addPoints d) init)
    | None => []
    end.
Proof.
  induction evs as [|a evs [IHp IHl]] using rev_ind; [done|].
  rewrite arrive_snoc, !omap_app.
  pose proof (reachable_arrive JSON_parse evs) as Hreach.
  apply reachable_wf in Hreach as Hwf.
  apply reachable_children in Hreach as Hch.
  set (w := arrive JSON_parse evs init) in *.
  assert (forall d,
    shown_polygons (exec (addPolygons JSON_parse d) w) =
      shown_polygons (exec (addPolygons JSON_parse d) init) /\
    shown_points (exec (addPolygons JSON_parse d) w) = shown_points w)
    as Hstates.
  { intros d. split.
    - rewrite !shown_polygons_after; auto using wf_init.
    - by apply addPolygons_frame. }
  assert (forall d,
    shown_points (exec (addPoints d) w) = shown_points (exec (addPoints d) init) /\
    shown_polygons (exec (addPoints d) w) = shown_polygons w)
    as Hlaws.
  { intros d. split.
    - rewrite !shown_points_after; auto using wf_init.
    - by apply addPoints_frame. }
  destruct a as [d|d|d|d]; simpl;
    rewrite ?last_snoc, ?app_nil_r;
    [destruct (Hstates d) as [-> ->]|destruct (Hlaws d) as [-> ->]
    |destruct (Hlaws d) as [-> ->]|destruct (Hstates d) as [-> ->]];
    done.
Qed.

(** The usual run of the page: both snapshots, then both spreadsheets. *)
Example arrivals_usual_run :
  let snapshot := [Sample.utah; Sample.ohio] in
  let sheet := [Sample.maine; Sample.utah; Sample.iowa] in
  shown_polygons
    (arrive json_parse
       [StatesSnapshot snapshot; LawsSnapshot [Sample.austin];
        LawsSheet [Sample.oregon]; StatesSheet sheet] init) =
  shown_polygons (exec (addPolygons json_parse sheet) init).
Proof. vm_compute. reflexivity. Qed.

(** ** Which rows and columns a build depends on *)

Lemma same_on_get ks r r' k :
  same_on ks r r' -> k ∈ ks -> get r k = get r' k.
Proof. intros Hs Hk. unfold get. by rewrite (Hs k Hk). Qed.

Lemma bind_ext_r {A B} (c : M A) (k k' : A -> M B) w :
  (forall a v, k a v = k' a v) -> (c ≫= k) w = (c ≫= k') w.
Proof.
  intros Hk. unfold mbind, M_bind. destruct (c w) as [[a|e] v]; [apply Hk|done].
Qed.

Section Depends.

Variable JSON_parse : string -> option json.

Lemma collect_filter data :
  collect JSON_parse (filter included data) = collect JSON_parse data.
Proof.
  unfold collect. rewrite list_filter_filter.
  f_equal. apply list_filter_iff. tauto.
Qed.

Lemma collect_same data data' :
  Forall2 (same_on state_columns) data data' ->
  collect JSON_parse data = collect JSON_parse data'.
Proof.
  induction 1 as [|r r' data data' Hr _ IH]; [done|].
  rewrite !collect_cons, IH.
  assert (forall k, k ∈ state_columns -> get r k = get r' k) as Hget.
  { intros k. by apply same_on_get. }
  assert (forall c, feature r c = feature r' c) as Hfeat.
  { intros c. unfold feature.
    rewrite (Hget "name"), (Hget "summary"), (Hget "state"), (Hget "local")
      by set_solver. done. }
  rewrite (Hget "geometry") by set_solver.
  assert (included r <-> included r') as Hinc.
  { unfold included. rewrite (Hr "include"); [done|]. set_solver. }
  rewrite (decide_ext _ _ _ _ Hinc).
  case_decide; [|done].
  destruct (JSON_parse _) as [c|]; simpl; [|done]. by rewrite Hfeat.
Qed.

Lemma collect_app d1 d2 :
  collect JSON_parse (d1 ++ d2) =
  fs1 ← collect JSON_parse d1; fs2 ← collect JSON_parse d2; Some (fs1 ++ fs2).
Proof.
  induction d1 as [|r d1 IH].
  - simpl. by destruct (collect JSON_parse d2).
  - rewrite <- app_comm_cons, !collect_cons, IH.
    case_decide; [|done].
    destruct (JSON_parse _) as [c|]; simpl; [|done].
    destruct (collect JSON_parse d1) as [fs1|]; simpl; [|done].
    by destruct (collect JSON_parse d2).
Qed.

(** What a build shows, whatever the page was. *)
Lemma rendered_collection_exec data w :
  rendered_collection (exec (addPolygons JSON_parse data) w) =
  (fun fs => {| collection_type := "FeatureCollection"; features := fs |})
    <$> collect JSON_parse data.
Proof.
  unfold exec. rewrite addPolygons_unfold. simpl.
  destruct (collect JSON_parse data) as [fs|]; simpl.
  - unfold rendered_collection. simpl.
    rewrite decide_True by (apply elem_of_attached; by left).
    by rewrite lookup_insert_eq.
  - unfold rendered_collection. simpl.
    destruct (polygonLayer w) as [l|]; [simpl|done].
    rewrite decide_False; [done|]. rewrite list_elem_of_filter. tauto.
Qed.

Lemma outcome_exec data w :
  (addPolygons JSON_parse data w).1 =
  match collect JSON_parse data with
  | Some _ => Return tt
  | None => Throw SyntaxError
  end.
Proof.
  rewrite addPolygons_unfold. simpl. by destruct (collect JSON_parse data).
Qed.

End Depends.

(** X8.  The rows that are not flagged play no part in a build: on every
    page, building from a table ends the same way and leaves the same page
    as building from its flagged rows alone. *)
Theorem addPolygons_ignores_unflagged
    (JSON_parse : string -> option json) (data : list row) (w : World) :
  addPolygons JSON_parse data w =
  addPolygons JSON_parse (filter included data) w.
Proof. by rewrite !addPolygons_unfold, collect_filter. Qed.

(** X9.  [addPolygons] reads six columns only: two tables whose rows agree,
    one by one, on [include], [geometry], [name], [summary], [state] and
    [local] end the same way and leave the same page. *)
Theorem addPolygons_reads_state_columns
    (JSON_parse : string -> option json) (data data' : list row) (w : World) :
  Forall2 (same_on state_columns) data data' ->
  addPolygons JSON_parse data w = addPolygons JSON_parse data' w.
Proof.
  intros Hsame. by rewrite !addPolygons_unfold, (collect_same _ _ _ Hsame).
Qed.

Lemma addPolygons_reads_state_columns_witness :
  addPolygons json_parse [Sample.utah; Sample.ohio] init =
  addPolygons json_parse [Sample.utah_annotated; Sample.ohio] init.
Proof.
  apply (addPolygons_reads_state_columns json_parse).
  repeat constructor; intros k Hk;
    repeat (apply elem_of_cons in Hk as [->|Hk]; [vm_compute; reflexivity|]);
    by apply elem_of_nil in Hk.
Defined.

(** X10.  [addPoints] reads five columns only: two tables whose rows agree,
    one by one, on [lat], [long], [location], [category] and [level] leave
    the same page. *)
Theorem addPoints_reads_law_columns (data data' : list row) (w : World) :
  Forall2 (same_on law_columns) data data' ->
  addPoints data w = addPoints data' w.
Proof.
  intros Hsame.
  assert (forall v, for_rows data v = for_rows data' v) as Hloop.
  { induction Hsame as [|r r' data data' Hr _ IH]; [done|].
    assert (forall k, k ∈ law_columns -> get r k = get r' k) as Hget.
    { intros k. by apply same_on_get. }
    intros v. simpl. unfold popup_html, marker_icon_of.
    rewrite (Hget "lat"), (Hget "long"), (Hget "location"),
      (Hget "category"), (Hget "level") by set_solver.
    repeat (apply bind_ext_r; intros). apply IH. }
  unfold addPoints. repeat (apply bind_ext_r; intros). apply Hloop.
Qed.

Lemma addPoints_reads_law_columns_witness :
  addPoints [Sample.austin; Sample.nowhere] init =
  addPoints [Sample.austin_annotated; Sample.nowhere] init.
Proof.
  apply addPoints_reads_law_columns.
  repeat constructor; intros k Hk;
    repeat (apply elem_of_cons in Hk as [->|Hk]; [vm_compute; reflexivity|]);
    by apply elem_of_nil in Hk.
Defined.

(** X11.  Building from two tables put end to end: the build throws when
    the build from the first table throws, and otherwise ends as the build
    from the second; when both return, it shows the features of the first
    followed by the features of the second. *)
Theorem addPolygons_append
    (JSON_parse : string -> option json) (d1 d2 : list row) (w : World) :
  (addPolygons JSON_parse (d1 ++ d2) w).1 =
    match (addPolygons JSON_parse d1 w).1 with
    | Return _ => (addPolygons JSON_parse d2 w).1
    | Throw e => Throw e
    end /\
  rendered_collection (exec (addPolygons JSON_parse (d1 ++ d2)) w) =
    (fc1 ← rendered_collection (exec (addPolygons JSON_parse d1) w);
     fc2 ← rendered_collection (exec (addPolygons JSON_parse d2) w);
     Some {| collection_type := "FeatureCollection";
             features := features fc1 ++ features fc2 |}).
Proof.
  rewrite !outcome_exec, !rendered_collection_exec, collect_app.
  destruct (collect JSON_parse d1) as [fs1|]; simpl; [|done].
  by destruct (collect JSON_parse d2) as [fs2|].
Qed.

(** X12.  A flagged row without a [geometry] cell fails the build: the
    missing cell reads as [undefined], whose text no JSON parser accepts. *)
Theorem addPolygons_missing_geometry
    (JSON_parse : string -> option json) (data : list row) (w : World)
    (r : row) :
  JSON_parse "undefined" = None ->
  r ∈ data -> included r -> r !! "geometry" = None ->
  (addPolygons JSON_parse data w).1 = Throw SyntaxError /\
  rendered_collection (exec (addPolygons JSON_parse data) w) = None.
Proof.
  intros Hparse Hin Hinc Hgeo.
  assert (collect JSON_parse data = None) as Hnone.
  { apply collect_None. exists r. repeat split; auto.
    unfold get. by rewrite Hgeo. }
  by rewrite outcome_exec, rendered_collection_exec, Hnone.
Qed.

Lemma addPolygons_missing_geometry_witness :
  let data := [Sample.utah; Sample.shapeless] in
  (addPolygons json_parse data init).1 = Throw SyntaxError /\
  rendered_collection (exec (addPolygons json_parse data) init) = None.
Proof.
  intros data.
  apply (addPolygons_missing_geometry json_parse data init Sample.shapeless).
  - vm_compute. reflexivity.
  - unfold data. set_solver.
  - vm_compute. reflexivity.
  - vm_compute. reflexivity.
Defined.

(** X13.  The popup of each polygon is made from its row: a build that
    returns leaves [polygonLayer] on a layer with the base style, whose
    popups are, in order, the [name] of each flagged row as a heading and
    its [summary] as a paragraph, an absent cell reading ["undefined"]. *)
Theorem addPolygons_popups
    (JSON_parse : string -> option json) (data : list row) (w w' : World) :
  addPolygons JSON_parse data w = (Return tt, w') ->
  exists l fc,
    polygonLayer w' = Some l /\
    heap w' !! l =
      Some (GeoJSON fc poylgonStyle (state_popup <$> filter included data)).
Proof.
  rewrite addPolygons_unfold. simpl.
  destruct (collect JSON_parse data) as [fs|] eqn:Hfs; [|discriminate].
  intros [= <-]. simpl. eexists _, _. split; [done|].
  rewrite lookup_insert_eq. do 2 f_equal.
  apply collect_Some in Hfs. clear w.
  induction Hfs as [|r f rs fs (c & _ & ->) _ IH]; [done|].
  rewrite !fmap_cons, IH. f_equal.
Qed.

Lemma addPolygons_popups_witness :
  let data := [Sample.maine; Sample.ohio; Sample.utah] in
  exists l fc,
    polygonLayer (exec (addPolygons json_parse data) init) = Some l /\
    heap (exec (addPolygons json_parse data) init) !! l =
      Some (GeoJSON fc poylgonStyle (state_popup <$> filter included data)).
Proof.
  intros data. apply (addPolygons_popups json_parse data init).
  vm_compute. reflexivity.
Defined.

(** X14.  A table without a flagged row is as good as the empty table: the
    build does not look at any geometry, returns, and puts a layer with an
    empty collection in place of the old one. *)
Theorem addPolygons_no_flagged_row
    (JSON_parse : string -> option json) (data : list row) (w : World) :
  (forall r, r ∈ data -> r !! "include" ≠ Some "y") ->
  addPolygons JSON_parse data w = addPolygons JSON_parse [] w /\
  (addPolygons JSON_parse data w).1 = Return tt /\
  rendered_collection (exec (addPolygons JSON_parse data) w) =
    Some {| collection_type := "FeatureCollection"; features := [] |}.
Proof.
  intros Hnone.
  assert (filter included data = []) as Hfilter.
  { apply filter_none. intros r Hr Hinc. by apply (Hnone r Hr). }
  assert (collect JSON_parse data = Some []) as Hcollect.
  { unfold collect. by rewrite Hfilter. }
  rewrite outcome_exec, rendered_collection_exec, !addPolygons_unfold, Hcollect.
  done.
Qed.

Lemma addPolygons_no_flagged_row_witness :
  let data := [Sample.ohio; Sample.skipped_broken; Sample.texas; Sample.iowa] in
  addPolygons json_parse data init = addPolygons json_parse [] init /\
  (addPolygons json_parse data init).1 = Return tt /\
  rendered_collection (exec (addPolygons json_parse data) init) =
    Some {| collection_type := "FeatureCollection"; features := [] |}.
Proof.
  intros data. apply (addPolygons_no_flagged_row json_parse data init).
  intros r Hr. unfold data in Hr.
  repeat (apply elem_of_cons in Hr as [->|Hr]; [vm_compute; discriminate|]).
  by apply elem_of_nil in Hr.
Defined.
